(** * Avalanche: online observation, metric utilities and online stream splitting

    A shallow embedding of
    - [avalanche/evaluation/metric_utils.py],
    - [avalanche/training/templates/observation_type/online_observation.py],
    - the stream splitter exercised by
      [tests/benchmarks/scenarios/test_online_scenario.py].

    Python objects that live in the deep-learning, plotting and imaging
    libraries (models, optimizers, tensors, figures, buffers, images) are
    represented by their identity; what the libraries do with them is left
    open and enters through a handler, so every statement below holds for
    any behaviour of those libraries. *)

From Stdlib Require Import ZArith QArith String Ascii List DecimalString Lia Bool.
From stdpp Require Import gmap strings list.
Import ListNotations.

Open Scope string_scope.
Open Scope Z_scope.

(** ** Python basics *)

(** A raised exception: its class name and its message. *)
Record pyexn := PyExn { exc_type : string; exc_msg : string }.

Definition OverflowError : pyexn :=
  PyExn "OverflowError" "int too large to convert to float".
Definition KeyError (k : string) : pyexn := PyExn "KeyError" k.
Definition AttributeError (attr : string) : pyexn := PyExn "AttributeError" attr.

(** The result of evaluating an expression: a raised exception or a value. *)
Definition pyresult (A : Type) : Type := (pyexn + A)%type.

(** [str(n)] on an [int]. *)
Definition str_int (n : Z) : string := NilZero.string_of_int (Z.to_int n).

(** [enumerate(l)], counting from [i]. *)
Fixpoint enumerate_from {A : Type} (i : Z) (l : list A) : list (Z * A) :=
  match l with
  | [] => []
  | x :: r => (i, x) :: enumerate_from (i + 1) r
  end.

Definition enumerate {A : Type} (l : list A) : list (Z * A) := enumerate_from 0 l.

(** *** Floats

    [bytes2human] touches floating point in two places: [float(n)] on an
    [int], and a division by a power of two.  Both are exact operations on
    rationals once [float(n)] has rounded [n] to 53 significant bits (ties
    to even), so a double is represented here by the rational it denotes. *)

(** Number of bits of [a] ([int.bit_length]). *)
Definition bit_length (a : Z) : Z := if a =? 0 then 0 else Z.log2 (Z.abs a) + 1.

(** [a] rounded to a multiple of [2^e], ties to the even multiple. *)
Definition round_half_even_shift (a e : Z) : Z :=
  let q := Z.shiftr a e in
  let r := a mod 2 ^ e in
  let half := 2 ^ (e - 1) in
  let q' := if (half <? r) || ((r =? half) && Z.odd q) then q + 1 else q in
  q' * 2 ^ e.

(** [float(n)]: the nearest double, [OverflowError] when there is none. *)
Definition float_of_int (n : Z) : pyresult Z :=
  let a := Z.abs n in
  if bit_length a <=? 53 then inr n
  else
    let f := round_half_even_shift a (bit_length a - 53) in
    if 2 ^ 1024 <=? f then inl OverflowError else inr (Z.sgn n * f).

(** [x / p] on doubles, for [x] an integer-valued double and [p] a positive
    power of two not above [|x|] (or [x = 0]): the quotient is exact. *)
Definition float_div (x p : Z) : Q := Qmake x (Z.to_pos p).

(** ['%.1f' % v]: the decimal nearest to [v] with one digit after the
    point, ties to the even digit. *)
Definition round_half_even_tenths (v : Q) : Z :=
  let num := 10 * Z.abs (Qnum v) in
  let den := Z.pos (Qden v) in
  let q := num / den in
  let r := num mod den in
  if (den <? 2 * r) || ((2 * r =? den) && Z.odd q) then q + 1 else q.

Definition format_1f (v : Q) : string :=
  let t := round_half_even_tenths v in
  let sign := if Qnum v <? 0 then "-" else "" in
  (sign ++ str_int (t / 10) ++ "." ++ str_int (t mod 10))%string.

(** ** [avalanche/evaluation/metric_utils.py] *)

(** The fields of a [PluggableStrategy] read by this module. *)
Record PluggableStrategy := {
  is_testing : bool;
  test_task_label : Z;
  train_task_label : Z
}.

Definition get_task_label (strategy : PluggableStrategy) : Z :=
  if is_testing strategy then test_task_label strategy
  else train_task_label strategy.

Definition phase_and_task (strategy : PluggableStrategy) : string * Z :=
  if is_testing strategy then ("Test", test_task_label strategy)
  else ("Train", train_task_label strategy).

Definition symbols : list string := ["K"; "M"; "G"; "T"; "P"; "E"; "Z"; "Y"].

(** The dictionary built by the first loop of [bytes2human]. *)
Definition prefix : gmap string Z :=
  foldl (fun d '(i, s) => <[s := Z.shiftl 1 ((i + 1) * 10)]> d) ∅ (enumerate symbols).

(** The second loop of [bytes2human], over the symbols still to try. *)
Fixpoint bytes2human_scan (n : Z) (ss : list string) : option (pyresult string) :=
  match ss with
  | [] => None
  | s :: rest =>
      match prefix !! s with
      | None => Some (inl (KeyError s))
      | Some p =>
          if p <=? n then
            Some match float_of_int n with
                 | inl e => inl e
                 | inr x => inr (format_1f (float_div x p) ++ s)%string
                 end
          else bytes2human_scan n rest
      end
  end.

Definition bytes2human (n : Z) : pyresult string :=
  match bytes2human_scan n (rev symbols) with
  | Some r => r
  | None => inr (str_int n ++ "B")%string
  end.

(** ** Objects of the surrounding libraries *)

(** A Python object owned by a library (a model, an optimizer, a tensor, a
    figure, a buffer, an image, a sample) is known by its identity only. *)
Definition objref : Type := nat.

(** Values handed through to a library untouched. *)
#[warnings="-register-all"]
Inductive pyval : Type :=
| PyNone
| PyBool (b : bool)
| PyInt (z : Z)
| PyFloat (q : Q)
| PyStr (s : string)
| PyObj (r : objref)
| PyList (l : list pyval).

(** ** Experiences *)

(** An experience of a batch stream: its samples.  The class is not among
    the sources; of its attributes only the dataset matters here. *)
Record CLExperience := {
  cl_dataset : list objref
}.

(** A sub-experience of an online stream, with the attributes that
    [online_observation.py] and the test read. *)
Record OnlineCLExperience := {
  dataset : list objref;
  origin_experience : CLExperience;
  is_first_subexp : bool;
  is_last_subexp : bool;
  access_task_boundaries : bool
}.

(** What [strategy.experience] may hold; [isinstance(_, OnlineCLExperience)]
    is the test of the second constructor. *)
Inductive AnyExperience : Type :=
| OfCL (e : CLExperience)
| OfOnline (e : OnlineCLExperience).

(** ** Calls into the libraries *)

Inductive extcall : Type :=
(* avalanche.models.dynamic_optimizers, avalanche.models.utils, torch *)
| reset_optimizer (opt mdl : objref)
| update_optimizer (opt : objref) (old_params new_params : list objref)
                   (reset_state : bool)
| avalanche_model_adaptation (mdl : objref) (exp : AnyExperience)
| model_parameters (mdl : objref)
| model_to (mdl : objref) (dev : pyval)
(* torch, sklearn, matplotlib, io, PIL *)
| tensor_numpy (t : objref)
| ConfusionMatrixDisplay (confusion_matrix : objref) (display_labels : pyval)
| display_plot (display : objref)
               (include_values cmap xticks_rotation values_format : pyval)
| display_ax_ (display : objref)
| ax_set_title (ax : objref) (title : pyval)
| display_figure_ (display : objref)
| fig_tight_layout (fig : objref)
| io_BytesIO
| fig_savefig (fig : objref) (fname : pyval) (format : string) (dpi : pyval)
| plt_close (fig : objref)
| buf_seek (buf : objref) (pos : Z)
| Image_open (fp : pyval).

(** What a call evaluates to when it does not raise. *)
Definition resp (c : extcall) : Type :=
  match c with
  | model_parameters _ => list objref
  | model_to _ _ | tensor_numpy _ | ConfusionMatrixDisplay _ _
  | display_ax_ _ | display_figure_ _ | io_BytesIO | Image_open _ => objref
  | _ => unit
  end.

(** One call and its outcome, as observed at the boundary. *)
Record event := Ev { ev_call : extcall; ev_resp : pyresult (resp ev_call) }.

(** The error a call raised, if it raised. *)
Definition ev_raised (ev : event) : option pyexn :=
  match ev_resp ev with
  | inl e => Some e
  | inr _ => None
  end.

(** A call to [reset_optimizer]. *)
Definition is_reset (ev : event) : bool :=
  match ev_call ev with
  | reset_optimizer _ _ => true
  | _ => false
  end.

(** A call that names a file: [savefig] to a path, or [Image.open] of one. *)
Definition touches_file (ev : event) : bool :=
  match ev_call ev with
  | fig_savefig _ (PyStr _) _ _ => true
  | Image_open (PyStr _) => true
  | _ => false
  end.

(** ** Execution: state of the caller, state of the libraries, calls made *)

Section Exec.
(** The libraries' own state and their behaviour on each call. *)
Context {World : Type}.
Variable lib : forall c : extcall, World -> pyresult (resp c) * World.
(** The state of the Python code itself ([self], where there is one). *)
Context {St : Type}.

Record Config := { self : St; world : World }.

Record Outcome (A : Type) := {
  result : pyresult A;
  final : Config;
  events : list event
}.
Arguments result {A}.
Arguments final {A}.
Arguments events {A}.

Definition M (A : Type) : Type := Config -> Outcome A.

Definition ret {A : Type} (a : A) : M A :=
  fun cfg => {| result := inr a; final := cfg; events := [] |}.

Definition raise {A : Type} (e : pyexn) : M A :=
  fun cfg => {| result := inl e; final := cfg; events := [] |}.

Definition bind {A B : Type} (m : M A) (k : A -> M B) : M B :=
  fun cfg =>
    let o := m cfg in
    match result o with
    | inl e => {| result := inl e; final := final o; events := events o |}
    | inr a =>
        let o' := k a (final o) in
        {| result := result o'; final := final o';
           events := events o ++ events o' |}
    end.

(** [self.attr] *)
Definition gets {A : Type} (f : St -> A) : M A :=
  fun cfg => ret (f (self cfg)) cfg.

(** [self.attr = v] *)
Definition modify (f : St -> St) : M unit :=
  fun cfg =>
    {| result := inr tt;
       final := {| self := f (self cfg); world := world cfg |};
       events := [] |}.

Definition call (c : extcall) : M (resp c) :=
  fun cfg =>
    let '(r, w) := lib c (world cfg) in
    {| result := r;
       final := {| self := self cfg; world := w |};
       events := [Ev c r] |}.
End Exec.

Arguments Config : clear implicits.
Arguments Outcome : clear implicits.
Arguments M : clear implicits.
Arguments result {World St A}.
Arguments final {World St A}.
Arguments events {World St A}.

Notation "'let*' x ':=' m 'in' k" := (bind m (fun x => k))
  (at level 10, x name, m at level 100, k at level 200, only parsing).

(** ** [default_cm_image_creator] of [metric_utils.py] *)

Section CMImage.
Context {World : Type}.
Variable lib : forall c : extcall, World -> pyresult (resp c) * World.
Context {St : Type}.

Definition default_cm_image_creator (confusion_matrix_tensor : objref)
    (display_labels include_values xticks_rotation values_format cmap dpi
     image_title : pyval) : M World St objref :=
  let* arr := call lib (tensor_numpy confusion_matrix_tensor) in
  let* display := call lib (ConfusionMatrixDisplay arr display_labels) in
  let* _ := call lib (display_plot display include_values cmap
                                   xticks_rotation values_format) in
  let* ax := call lib (display_ax_ display) in
  let* _ := call lib (ax_set_title ax image_title) in
  let* fig := call lib (display_figure_ display) in
  let* _ := call lib (fig_tight_layout fig) in
  let* buf := call lib io_BytesIO in
  let* _ := call lib (fig_savefig fig (PyObj buf) "jpg" dpi) in
  let* _ := call lib (plt_close fig) in
  let* _ := call lib (buf_seek buf 0) in
  let* image := call lib (Image_open (PyObj buf)) in
  ret image.
End CMImage.

(** ** [online_observation.py] *)

(** The attributes of the strategy that [OnlineObservation] reads and
    writes.  [model_params_before_adaptation] is [None] until
    [model_adaptation] has assigned it. *)
Record Strategy := {
  experience : AnyExperience;
  optimizer : objref;
  model : objref;
  model_params_before_adaptation : option (list objref);
  device : pyval
}.

Definition set_model (m : objref) (s : Strategy) : Strategy :=
  {| experience := experience s;
     optimizer := optimizer s;
     model := m;
     model_params_before_adaptation := model_params_before_adaptation s;
     device := device s |}.

Definition set_model_params_before_adaptation (ps : list objref)
    (s : Strategy) : Strategy :=
  {| experience := experience s;
     optimizer := optimizer s;
     model := model s;
     model_params_before_adaptation := Some ps;
     device := device s |}.

Section OnlineObservation.
Context {World : Type}.
Variable lib : forall c : extcall, World -> pyresult (resp c) * World.

(** [self.experience.access_task_boundaries]; only an
    [OnlineCLExperience] has the attribute. *)
Definition experience_access_task_boundaries : M World Strategy bool :=
  let* e := gets experience in
  match e with
  | OfOnline o => ret (access_task_boundaries o)
  | OfCL _ => raise (AttributeError "access_task_boundaries")
  end.

(** [self.experience.is_first_subexp] *)
Definition experience_is_first_subexp : M World Strategy bool :=
  let* e := gets experience in
  match e with
  | OfOnline o => ret (is_first_subexp o)
  | OfCL _ => raise (AttributeError "is_first_subexp")
  end.

(** [self.model_params_before_adaptation] *)
Definition self_model_params_before_adaptation : M World Strategy (list objref) :=
  let* p := gets model_params_before_adaptation in
  match p with
  | Some ps => ret ps
  | None => raise (AttributeError "model_params_before_adaptation")
  end.

Definition make_optimizer : M World Strategy unit :=
  let* b := experience_access_task_boundaries in
  if b then
    let* opt := gets optimizer in
    let* mdl := gets model in
    call lib (reset_optimizer opt mdl)
  else
    let* opt := gets optimizer in
    let* before := self_model_params_before_adaptation in
    let* mdl := gets model in
    let* params := call lib (model_parameters mdl) in
    call lib (update_optimizer opt before params false).

Definition model_adaptation (model_arg : option objref) : M World Strategy objref :=
  let* mdl := match model_arg with
              | None => gets model
              | Some m => ret m
              end in
  let* e := gets experience in
  let* _ :=
    match e return M World Strategy unit with
    | OfOnline o =>
        if access_task_boundaries o then
          call lib (avalanche_model_adaptation mdl
                      (OfCL (origin_experience o)))
        else
          let* params := call lib (model_parameters mdl) in
          let* _ := modify (set_model_params_before_adaptation params) in
          call lib (avalanche_model_adaptation mdl e)
    | OfCL _ =>
        call lib (avalanche_model_adaptation mdl e)
    end in
  let* dev := gets device in
  call lib (model_to mdl dev).

Definition maybe_adapt_model_and_make_optimizer : M World Strategy unit :=
  let* b := experience_access_task_boundaries in
  if b then
    let* first := experience_is_first_subexp in
    if first then
      let* m := model_adaptation None in
      let* _ := modify (set_model m) in
      make_optimizer
    else ret tt
  else
    let* m := model_adaptation None in
    let* _ := modify (set_model m) in
    make_optimizer.
End OnlineObservation.

(** ** The online stream splitter *)

(** Modelled from the spec: [split_online_stream] and the construction of
    its sub-experiences ([avalanche.benchmarks.scenarios.online]) are not
    among the sources; only the test that drives them is.  Following the
    spec, a source experience is cut into consecutive chunks of
    [experience_size] samples, the last chunk holding what remains; with
    [drop_last] only the full-size chunks are kept; the first sub-experience
    of a source experience is marked first and its last one is marked
    last. *)

(** Modelled from the spec: the consecutive chunks of [l], [size] samples
    each, the last one shorter when [size] does not divide the length.  The
    first argument bounds the number of chunks. *)
Fixpoint chunks_upto (fuel size : nat) (l : list objref) : list (list objref) :=
  match fuel with
  | O => []
  | S fuel' =>
      match l with
      | [] => []
      | _ :: _ => take size l :: chunks_upto fuel' size (drop size l)
      end
  end.

(** Modelled from the spec: a dataset of [n] samples has at most [n]
    chunks. *)
Definition fixed_size_chunks (size : nat) (l : list objref) : list (list objref) :=
  chunks_upto (length l) size l.

(** Modelled from the spec: "with drop_last=True, only full-size chunks are
    kept". *)
Definition kept_chunks (size : nat) (drop_last : bool) (l : list objref)
    : list (list objref) :=
  if drop_last
  then filter (fun c => length c = size) (fixed_size_chunks size l)
  else fixed_size_chunks size l.

(** Modelled from the spec: the sub-experiences over the chunks [cs] of one
    source experience; [first] tells whether the head of [cs] is the first
    one, and the chunk with nothing after it is the last one. *)
Fixpoint mark_subexps (origin : CLExperience) (boundaries first : bool)
    (cs : list (list objref)) : list OnlineCLExperience :=
  match cs with
  | [] => []
  | c :: rest =>
      {| dataset := c;
         origin_experience := origin;
         is_first_subexp := first;
         is_last_subexp := match rest with [] => true | _ :: _ => false end;
         access_task_boundaries := boundaries |}
      :: mark_subexps origin boundaries false rest
  end.

(** Modelled from the spec: the sub-experiences of one source experience. *)
Definition fixed_size_experience_split (exp : CLExperience)
    (experience_size : nat) (drop_last boundaries : bool)
    : list OnlineCLExperience :=
  mark_subexps exp boundaries true
    (kept_chunks experience_size drop_last (cl_dataset exp)).

(** Modelled from the spec: the online stream, source experience after
    source experience. *)
Definition split_online_stream (original_stream : list CLExperience)
    (experience_size : nat) (drop_last boundaries : bool)
    : list OnlineCLExperience :=
  concat (map (fun exp => fixed_size_experience_split exp experience_size
                            drop_last boundaries)
              original_stream).

(** The counters of the test: sub-experiences marked first, marked last. *)
Definition cnt_is_first (l : list OnlineCLExperience) : nat :=
  length (filter (fun x => is_first_subexp x = true) l).

Definition cnt_is_last (l : list OnlineCLExperience) : nat :=
  length (filter (fun x => is_last_subexp x = true) l).

(** Size of a stream: the samples of all its experiences. *)
Definition stream_size (original_stream : list CLExperience) : nat :=
  list_sum (map (fun exp => length (cl_dataset exp)) original_stream).

(** [ceil(a / b)] *)
Definition ceil_div (a b : nat) : nat := ((a + b - 1) / b)%nat.

(** ** Specification vocabulary *)

(** Every error raised by a library call made during a run of [m] is the
    error the run itself ends with. *)
Definition propagates {World St A : Type} (m : M World St A) : Prop :=
  forall (cfg : Config World St) (ev : event) (e : pyexn),
    In ev (events (m cfg)) -> ev_raised ev = Some e -> result (m cfg) = inl e.

(** Chunks of at most [size] samples, all but the last of exactly [size]. *)
Fixpoint well_chunked (size : nat) (cs : list (list objref)) : Prop :=
  match cs with
  | [] => True
  | c :: rest =>
      (length c <= size)%nat /\ (rest <> [] -> length c = size) /\
      well_chunked size rest
  end.

(** ** Libraries, strategies and streams to run the code on *)

(** A library that never raises: objects are numbered as they are made,
    [model.to] answers with the model itself, and a model has one
    parameter more after each adaptation. *)
Definition quiet_lib (c : extcall) (w : nat) : pyresult (resp c) * nat :=
  match c return pyresult (resp c) * nat with
  | reset_optimizer _ _ => (inr tt, w)
  | update_optimizer _ _ _ _ => (inr tt, w)
  | avalanche_model_adaptation _ _ => (inr tt, S w)
  | model_parameters _ => (inr (seq 0 w), w)
  | model_to mdl _ => (inr mdl, w)
  | tensor_numpy _ => (inr w, S w)
  | ConfusionMatrixDisplay _ _ => (inr w, S w)
  | display_plot _ _ _ _ _ => (inr tt, w)
  | display_ax_ _ => (inr w, S w)
  | ax_set_title _ _ => (inr tt, w)
  | display_figure_ _ => (inr w, S w)
  | fig_tight_layout _ => (inr tt, w)
  | io_BytesIO => (inr w, S w)
  | fig_savefig _ _ _ _ => (inr tt, w)
  | plt_close _ => (inr tt, w)
  | buf_seek _ _ => (inr tt, w)
  | Image_open _ => (inr w, S w)
  end.

Definition ValueError_cmap : pyexn := PyExn "ValueError" "not a valid colormap".

(** The same library, except that plotting accepts no colormap name but
    ["viridis"]. *)
Definition strict_lib (c : extcall) (w : nat) : pyresult (resp c) * nat :=
  match c as c' return pyresult (resp c') * nat with
  | display_plot _ _ (PyStr name) _ _ =>
      if String.eqb name "viridis" then (inr tt, w) else (inl ValueError_cmap, w)
  | c' => quiet_lib c' w
  end.

(** An experience with the [n] samples [first .. first+n-1]. *)
Definition experience_of (first n : nat) : CLExperience :=
  {| cl_dataset := seq first n |}.

(** Two experiences of 15 samples each. *)
Definition stream_15_15 : list CLExperience :=
  [experience_of 0 15; experience_of 15 15].

(** One experience of 5 samples. *)
Definition stream_5 : list CLExperience := [experience_of 0 5].

(** Five experiences of 25 samples each. *)
Definition stream_5x25 : list CLExperience :=
  map (fun i => experience_of (25 * i) 25) (seq 0 5).

(** A sub-experience of 10 samples cut from an experience of 25. *)
Definition subexp_of (first boundaries : bool) : OnlineCLExperience :=
  {| dataset := seq 10 10;
     origin_experience := experience_of 0 25;
     is_first_subexp := first;
     is_last_subexp := false;
     access_task_boundaries := boundaries |}.

(** A strategy at the start of the sub-experience [e]: optimizer 1, model
    2, nothing recorded yet, the library about to make object 3. *)
Definition strategy_at (e : AnyExperience) : Config nat Strategy :=
  {| self := {| experience := e;
                optimizer := 1%nat;
                model := 2%nat;
                model_params_before_adaptation := None;
                device := PyStr "cpu" |};
     world := 3%nat |}.

(** ** More vocabulary for the properties *)

(** A library call that did not raise. *)
Definition quiet (ev : event) : Prop := ev_raised ev = None.

(** A call to [update_optimizer]. *)
Definition is_update (ev : event) : bool :=
  match ev_call ev with
  | update_optimizer _ _ _ _ => true
  | _ => false
  end.

(** An [AttributeError], whatever the attribute. *)
Definition is_AttributeError (e : pyexn) : Prop := exc_type e = "AttributeError".

(** A run of [m] stops at the first library call that raises: when it
    returns, no call has raised; when it ends with the error [e], every
    call but the last has returned, and either the last call raised [e] or
    all calls returned and [e], one of [own], was raised by the code
    itself. *)
Definition fails_fast {World St A : Type} (own : pyexn -> Prop)
    (m : M World St A) : Prop :=
  forall cfg : Config World St,
    match result (m cfg) with
    | inr _ => Forall quiet (events (m cfg))
    | inl e =>
        exists pre,
          Forall quiet pre /\
          ((events (m cfg) = pre /\ own e) \/
           exists c, events (m cfg) = (pre ++ [Ev c (inl e)])%list)
    end.

(** A call to [plt.close]. *)
Definition is_plt_close (ev : event) : bool :=
  match ev_call ev with
  | plt_close _ => true
  | _ => false
  end.

(** A call to [savefig]. *)
Definition is_savefig (ev : event) : bool :=
  match ev_call ev with
  | fig_savefig _ _ _ _ => true
  | _ => false
  end.

(** ** [_train_exp] of [online_observation.py] *)

(** An entry of [eval_streams]: an experience, which is not an [Iterable],
    or a stream of experiences, which is one. *)
Inductive eval_target : Type :=
| SingleExperience (exp : AnyExperience)
| ExperienceStream (exps : list AnyExperience).

(** [isinstance(exp, Iterable)] *)
Definition is_Iterable (t : eval_target) : bool :=
  match t with
  | SingleExperience _ => false
  | ExperienceStream _ => true
  end.

(** The loop [for i, exp in enumerate(eval_streams)], from index [i] on,
    on the list it assigns to; the first argument bounds the entries still
    to visit. *)
Fixpoint train_exp_wrap (fuel i : nat) (eval_streams : list eval_target)
    : list eval_target :=
  match fuel with
  | O => eval_streams
  | S fuel' =>
      match eval_streams !! i with
      | None => eval_streams
      | Some exp =>
          train_exp_wrap fuel' (S i)
            match exp with
            | SingleExperience e => <[i := ExperienceStream [e]]> eval_streams
            | ExperienceStream _ => eval_streams
            end
      end
  end.

(** The list [eval_streams] stands for when [training_epoch] is called:
    the caller's own list, assigned to in place, or a new one. *)
Definition train_exp_eval_streams (experience : AnyExperience)
    (eval_streams : option (list eval_target)) : list eval_target :=
  let eval_streams :=
    match eval_streams with
    | None => [SingleExperience experience]
    | Some l => l
    end in
  train_exp_wrap (length eval_streams) 0 eval_streams.

Section TrainExp.
Context {World Kwargs : Type}.
(** [self.training_epoch], a method of another part of the strategy. *)
Variable training_epoch : Kwargs -> M World Strategy unit.

Definition _train_exp (experience : AnyExperience)
    (eval_streams : option (list eval_target)) (kwargs : Kwargs)
    : M World Strategy unit :=
  let eval_streams := train_exp_eval_streams experience eval_streams in
  training_epoch kwargs.
End TrainExp.

(** * Properties *)

(** ** [metric_utils.py]: task labels and [bytes2human] *)

(** The two examples in the comments of [bytes2human]. *)
Example bytes2human_examples :
  bytes2human 10000 = inr "9.8K" /\ bytes2human 100001221 = inr "95.4M".
Proof. split; vm_compute; reflexivity. Qed.

Lemma bit_length_le (a k : Z) : 0 <= a < 2 ^ k -> 0 <= k -> bit_length a <= k.
Proof.
  intros [Ha Hlt] Hk. unfold bit_length.
  destruct (Z.eqb_spec a 0) as [->|Hne]; [lia|].
  rewrite Z.abs_eq by lia.
  assert (Z.log2 a < k) by (apply Z.log2_lt_pow2; lia). lia.
Qed.

Lemma bit_length_bounds (a : Z) :
  0 < a -> 2 ^ (bit_length a - 1) <= a < 2 ^ bit_length a.
Proof.
  intros Ha. unfold bit_length.
  destruct (Z.eqb_spec a 0) as [->|Hne]; [lia|].
  rewrite Z.abs_eq by lia.
  replace (Z.log2 a + 1 - 1) with (Z.log2 a) by lia.
  replace (Z.log2 a + 1) with (Z.succ (Z.log2 a)) by lia.
  apply Z.log2_spec. lia.
Qed.

Lemma float_of_int_exact (n : Z) : 0 <= n < 2 ^ 53 -> float_of_int n = inr n.
Proof.
  intros Hn. unfold float_of_int.
  rewrite Z.abs_eq by lia.
  assert (bit_length n <= 53) by (apply bit_length_le; lia).
  destruct (Z.leb_spec (bit_length n) 53); [reflexivity|lia].
Qed.

Lemma round_half_even_shift_near (a e : Z) :
  0 <= a -> 0 < e ->
  2 * Z.abs (round_half_even_shift a e - a) <= 2 ^ e.
Proof.
  intros Ha He. unfold round_half_even_shift.
  rewrite Z.shiftr_div_pow2 by lia.
  assert (Hp : 0 < 2 ^ e) by (apply Z.pow_pos_nonneg; lia).
  assert (Hh : 2 ^ e = 2 * 2 ^ (e - 1)).
  { rewrite <- Z.pow_succ_r by lia. f_equal. lia. }
  pose proof (Z.div_mod a (2 ^ e) ltac:(lia)) as Hdm.
  pose proof (Z.mod_pos_bound a (2 ^ e) Hp) as Hr.
  set (q := a / 2 ^ e) in *. set (r := a mod 2 ^ e) in *.
  set (h := 2 ^ (e - 1)) in *. set (p := 2 ^ e) in *.
  destruct ((h <? r) || ((r =? h) && Z.odd q)) eqn:Hup.
  - assert (h <= r).
    { apply orb_true_iff in Hup as [Hup|Hup].
      - apply Z.ltb_lt in Hup. lia.
      - apply andb_true_iff in Hup as [Hup _]. apply Z.eqb_eq in Hup. lia. }
    nia.
  - apply orb_false_iff in Hup as [Hup _]. apply Z.ltb_ge in Hup. nia.
Qed.

Lemma round_half_even_shift_le (a e : Z) :
  0 <= a -> 0 < e ->
  round_half_even_shift a e <= (a / 2 ^ e + 1) * 2 ^ e.
Proof.
  intros Ha He. unfold round_half_even_shift.
  rewrite Z.shiftr_div_pow2 by lia.
  assert (Hp : 0 < 2 ^ e) by (apply Z.pow_pos_nonneg; lia).
  destruct (_ || _); nia.
Qed.

(** Below [2^1024 - 2^970], [float(n)] exists and is within a relative
    error of [2^-53] of [n]. *)
Lemma float_of_int_returns (n : Z) :
  0 <= n < 2 ^ 1024 - 2 ^ 970 ->
  exists x, float_of_int n = inr x /\
            2 ^ 53 * Z.abs (x - n) <= n /\
            (n < 2 ^ 53 -> x = n).
Proof.
  intros [H0 Hn].
  destruct (Z.leb_spec (bit_length n) 53) as [Hb|Hb].
  - exists n. unfold float_of_int. rewrite Z.abs_eq by lia.
    destruct (Z.leb_spec (bit_length n) 53); [|lia].
    split; [reflexivity|]. split; [|reflexivity].
    replace (n - n) with 0 by lia. simpl Z.abs. lia.
  - assert (Hpos : 0 < n).
    { destruct (Z.eq_dec n 0) as [->|]; [vm_compute in Hb; discriminate|lia]. }
    assert (Hle : bit_length n <= 1024) by (apply bit_length_le; lia).
    pose proof (bit_length_bounds n Hpos) as [Hlo Hhi].
    set (e := bit_length n - 53) in *.
    assert (He : 0 < e <= 971) by lia.
    assert (Hp : 0 < 2 ^ e) by (apply Z.pow_pos_nonneg; lia).
    pose proof (round_half_even_shift_near n e H0 ltac:(lia)) as Hnear.
    assert (Hlt : round_half_even_shift n e < 2 ^ 1024).
    { destruct (Z.eq_dec (bit_length n) 1024) as [Heq|Hne].
      - assert (e = 971) as -> by lia.
        unfold round_half_even_shift.
        rewrite Z.shiftr_div_pow2 by lia.
        pose proof (Z.div_mod n (2 ^ 971) ltac:(lia)) as Hdm.
        pose proof (Z.mod_pos_bound n (2 ^ 971) ltac:(lia)) as Hr.
        replace (971 - 1) with 970 by lia.
        set (q := n / 2 ^ 971) in *. set (r := n mod 2 ^ 971) in *.
        destruct ((2 ^ 970 <? r) || ((r =? 2 ^ 970) && Z.odd q)) eqn:Hup.
        + assert (2 ^ 970 <= r).
          { apply orb_true_iff in Hup as [Hup|Hup].
            - apply Z.ltb_lt in Hup. lia.
            - apply andb_true_iff in Hup as [Hup _]. apply Z.eqb_eq in Hup. lia. }
          lia.
        + lia.
      - pose proof (round_half_even_shift_le n e H0 ltac:(lia)) as Hrl.
        pose proof (Z.div_mod n (2 ^ e) ltac:(lia)) as Hdm.
        pose proof (Z.mod_pos_bound n (2 ^ e) Hp) as Hr.
        assert (2 ^ bit_length n <= 2 ^ 1023) by (apply Z.pow_le_mono_r; lia).
        assert (2 ^ e <= 2 ^ 970) by (apply Z.pow_le_mono_r; lia).
        lia. }
    exists (round_half_even_shift n e). unfold float_of_int.
    rewrite Z.abs_eq by lia. fold e.
    destruct (Z.leb_spec (bit_length n) 53); [lia|].
    destruct (Z.leb_spec (2 ^ 1024) (round_half_even_shift n e)); [lia|].
    rewrite Z.sgn_pos by lia. rewrite Z.mul_1_l.
    split; [reflexivity|]. split.
    + assert (Hpw : 2 ^ (bit_length n - 1) = 2 ^ 52 * 2 ^ e).
      { rewrite <- Z.pow_add_r by lia. f_equal. lia. }
      lia.
    + intros Hsmall. assert (bit_length n <= 53) by (apply bit_length_le; lia). lia.
Qed.

(** The dictionary holds [2^(10*(i+1))] at the [i]-th symbol. *)
Lemma prefix_lookup (i : nat) (s : string) :
  symbols !! i = Some s -> prefix !! s = Some (2 ^ (10 * (Z.of_nat i + 1))).
Proof.
  intros Hs.
  do 8 (destruct i as [|i]; [injection Hs as <-; vm_compute; reflexivity|]).
  discriminate Hs.
Qed.

Lemma bytes2human_scan_skip (n p : Z) (s : string) (rest : list string) :
  prefix !! s = Some p -> n < p ->
  bytes2human_scan n (s :: rest) = bytes2human_scan n rest.
Proof.
  intros Hs Hlt. cbn [bytes2human_scan]. rewrite Hs.
  destruct (Z.leb_spec p n); [lia|reflexivity].
Qed.

Lemma bytes2human_scan_hit (n p x : Z) (s : string) (rest : list string) :
  prefix !! s = Some p -> p <= n -> float_of_int n = inr x ->
  bytes2human_scan n (s :: rest)
  = Some (inr (format_1f (float_div x p) ++ s)%string).
Proof.
  intros Hs Hle Hx. cbn [bytes2human_scan]. rewrite Hs, Hx.
  destruct (Z.leb_spec p n); [reflexivity|lia].
Qed.

Lemma bytes2human_scan_app (n p x : Z) (s : string) (above below : list string) :
  Forall (fun s' => exists p', prefix !! s' = Some p' /\ n < p') above ->
  prefix !! s = Some p -> p <= n -> float_of_int n = inr x ->
  bytes2human_scan n (above ++ s :: below)
  = Some (inr (format_1f (float_div x p) ++ s)%string).
Proof.
  intros Habove Hs Hle Hx.
  induction Habove as [|s' above [p' [Hs' Hlt]] _ IH].
  - now apply bytes2human_scan_hit.
  - rewrite <- app_comm_cons.
    rewrite (bytes2human_scan_skip n p' s' _ Hs' Hlt). exact IH.
Qed.

(** The scan of the symbols from the largest down stops at the largest
    prefix not above [n]. *)
Lemma bytes2human_scan_largest (n x : Z) (i : nat) (s : string) :
  symbols !! i = Some s ->
  2 ^ (10 * (Z.of_nat i + 1)) <= n ->
  (forall j s', symbols !! j = Some s' ->
                2 ^ (10 * (Z.of_nat j + 1)) <= n -> (j <= i)%nat) ->
  float_of_int n = inr x ->
  bytes2human_scan n (rev symbols)
  = Some (inr (format_1f (float_div x (2 ^ (10 * (Z.of_nat i + 1)))) ++ s)%string).
Proof.
  intros Hs Hle Hmax Hx.
  rewrite <- (take_drop_middle symbols i s Hs).
  rewrite rev_app_distr. cbn [rev]. rewrite <- app_assoc. cbn [app].
  apply bytes2human_scan_app; [|now apply prefix_lookup|assumption|assumption].
  apply Forall_forall. intros s' Hin.
  apply list_elem_of_In, in_rev, list_elem_of_In in Hin.
  apply list_elem_of_lookup in Hin as [k Hk].
  rewrite lookup_drop in Hk.
  exists (2 ^ (10 * (Z.of_nat (Datatypes.S i + k) + 1))).
  split; [now apply prefix_lookup|].
  destruct (Z.lt_ge_cases n (2 ^ (10 * (Z.of_nat (Datatypes.S i + k) + 1))))
    as [|Hge]; [assumption|].
  specialize (Hmax _ _ Hk Hge). lia.
Qed.

Lemma bytes2human_scan_none (n : Z) :
  n < 1024 -> bytes2human_scan n (rev symbols) = None.
Proof.
  intros Hn.
  assert (Hall : Forall (fun s' => exists p', prefix !! s' = Some p' /\ n < p')
                        (rev symbols)).
  { apply Forall_forall. intros s' Hin.
    apply list_elem_of_In, in_rev, list_elem_of_In in Hin.
    apply list_elem_of_lookup in Hin as [k Hk].
    exists (2 ^ (10 * (Z.of_nat k + 1))). split; [now apply prefix_lookup|].
    assert (2 ^ 10 <= 2 ^ (10 * (Z.of_nat k + 1)))
      by (apply Z.pow_le_mono_r; lia).
    lia. }
  induction Hall as [|s' l [p' [Hs' Hlt]] _ IH]; [reflexivity|].
  now rewrite (bytes2human_scan_skip n p' s' _ Hs' Hlt).
Qed.

(** C9: the task label of [get_task_label] is the second component of
    [phase_and_task]; the first component is "Test" exactly when the
    strategy is testing and "Train" otherwise. *)
Theorem get_task_label_phase_and_task (strategy : PluggableStrategy) :
  get_task_label strategy = snd (phase_and_task strategy) /\
  (fst (phase_and_task strategy) = "Test" <-> is_testing strategy = true) /\
  (fst (phase_and_task strategy) = "Train" <-> is_testing strategy = false).
Proof.
  unfold get_task_label, phase_and_task.
  destruct (is_testing strategy); cbn; repeat split; intros; congruence.
Qed.

(** C10 fails as stated: [2^1024] is a non-negative integer at least 1024,
    and [bytes2human] raises [OverflowError] on it instead of returning a
    string. *)
Lemma bytes2human_overflow :
  0 <= 2 ^ 1024 /\ 1024 <= 2 ^ 1024 /\
  bytes2human (2 ^ 1024) = inl OverflowError /\
  (forall s, bytes2human (2 ^ 1024) <> inr s).
Proof.
  assert (H : bytes2human (2 ^ 1024) = inl OverflowError)
    by (vm_compute; reflexivity).
  split; [lia|]. split; [lia|]. split; [exact H|].
  intros s. rewrite H. discriminate.
Qed.

(** C10, amended: for [0 <= n < 2^1024 - 2^970], [bytes2human n] returns
    [str(n)] followed by "B" when [n < 1024]; otherwise, with [s] the
    [i]-th symbol, the largest whose prefix [2^(10*(i+1))] is at most [n],
    it returns [float(n)] divided by that prefix, formatted to one decimal
    place, followed by [s]; [float(n)] is [n] rounded to 53 significant
    bits, and is [n] itself below [2^53]. *)
Theorem bytes2human_spec (n : Z) :
  0 <= n < 2 ^ 1024 - 2 ^ 970 ->
  (n < 1024 -> bytes2human n = inr (str_int n ++ "B")%string) /\
  (forall (i : nat) (s : string),
      symbols !! i = Some s ->
      2 ^ (10 * (Z.of_nat i + 1)) <= n ->
      (forall j s', symbols !! j = Some s' ->
                    2 ^ (10 * (Z.of_nat j + 1)) <= n -> (j <= i)%nat) ->
      exists x,
        float_of_int n = inr x /\
        2 ^ 53 * Z.abs (x - n) <= n /\
        (n < 2 ^ 53 -> x = n) /\
        bytes2human n
        = inr (format_1f (float_div x (2 ^ (10 * (Z.of_nat i + 1)))) ++ s)%string).
Proof.
  intros Hn. split.
  - intros Hsmall. unfold bytes2human.
    now rewrite bytes2human_scan_none.
  - intros i s Hs Hle Hmax.
    destruct (float_of_int_returns n Hn) as (x & Hx & Hnear & Hexact).
    exists x. repeat split; try assumption.
    unfold bytes2human.
    now rewrite (bytes2human_scan_largest n x i s Hs Hle Hmax Hx).
Qed.

(** The example of the source: [bytes2human(10000)] is '9.8K'. *)
Lemma bytes2human_spec_witness :
  0 <= 10000 < 2 ^ 1024 - 2 ^ 970 /\ bytes2human 10000 = inr "9.8K".
Proof.
  assert (Hn : 0 <= 10000 < 2 ^ 1024 - 2 ^ 970) by lia.
  split; [exact Hn|].
  destruct (bytes2human_spec 10000 Hn) as [_ Hbig].
  destruct (Hbig 0%nat "K" eq_refl ltac:(lia)) as (x & _ & _ & Hx & ->).
  - intros j s' _ Hj. destruct j as [|j]; [lia|].
    assert (2 ^ 20 <= 2 ^ (10 * (Z.of_nat (S j) + 1)))
      by (apply Z.pow_le_mono_r; lia).
    lia.
  - rewrite (Hx ltac:(lia)). vm_compute. reflexivity.
Defined.

(** ** Laws of the execution monad *)

Section MonadLaws.
Context {World : Type}.
Variable lib : forall c : extcall, World -> pyresult (resp c) * World.
Context {St : Type}.

Lemma bind_ret {A B : Type} (a : A) (k : A -> M World St B) cfg :
  bind (ret a) k cfg = k a cfg.
Proof. unfold bind, ret. cbn. now destruct (k a cfg). Qed.

Lemma bind_raise {A B : Type} (e : pyexn) (k : A -> M World St B) cfg :
  bind (raise e) k cfg = raise e cfg.
Proof. reflexivity. Qed.

Lemma bind_gets {A B : Type} (f : St -> A) (k : A -> M World St B) cfg :
  bind (gets f) k cfg = k (f (self cfg)) cfg.
Proof. unfold bind, gets, ret. cbn. now destruct (k _ cfg). Qed.

Lemma bind_modify {B : Type} (f : St -> St) (k : unit -> M World St B) cfg :
  bind (modify f) k cfg
  = k tt {| self := f (self cfg); world := world cfg |}.
Proof. unfold bind, modify. cbn. now destruct (k tt _). Qed.

Lemma bind_assoc {A B C : Type} (m : M World St A) (k : A -> M World St B)
    (k' : B -> M World St C) cfg :
  bind (bind m k) k' cfg = bind m (fun a => bind (k a) k') cfg.
Proof.
  unfold bind. destruct (m cfg) as [[e|a] cfg1 ev1]; cbn; [reflexivity|].
  destruct (k a cfg1) as [[e|b] cfg2 ev2]; cbn; [reflexivity|].
  now rewrite app_assoc.
Qed.

Lemma bind_call {B : Type} (c : extcall) (k : resp c -> M World St B) cfg :
  bind (call lib c) k cfg
  = match lib c (world cfg) with
    | (inl e, w) =>
        {| result := inl e;
           final := {| self := self cfg; world := w |};
           events := [Ev c (inl e)] |}
    | (inr v, w) =>
        let o := k v {| self := self cfg; world := w |} in
        {| result := result o; final := final o;
           events := Ev c (inr v) :: events o |}
    end.
Proof. unfold bind, call. now destruct (lib c (world cfg)) as [[e|v] w]. Qed.
End MonadLaws.

(** Writes the type of the value bound after a call as [resp] of that call,
    so that the laws of [call] apply. *)
(** Writes the type of the value bound after a call as [resp] of that call,
    so that the laws of [call] apply. *)
Ltac bind_call_types :=
  repeat match goal with
  | |- context [@bind ?W ?S ?A ?B (@call ?W' ?l ?S' ?c) ?k] =>
      lazymatch A with
      | resp c => fail
      | _ => change (@bind W S A B (@call W' l S' c) k)
               with (@bind W S (resp c) B (@call W' l S' c) k)
      end
  end.

(** ** [online_observation.py] and [default_cm_image_creator] *)

Section Library.
Context {World : Type}.
Variable lib : forall c : extcall, World -> pyresult (resp c) * World.

(** C4, amended: with an online experience as current experience,
    [make_optimizer] is the single call [reset_optimizer(optimizer, model)]
    when [access_task_boundaries] is true; when it is false and
    [model_params_before_adaptation] has been assigned it is
    [update_optimizer(optimizer, model_params_before_adaptation,
    model.parameters(), reset_state=False)]; when it is false and nothing
    has been recorded it raises [AttributeError] without any library call;
    and a [reset_optimizer] call is made exactly when the flag is true. *)
Theorem make_optimizer_spec (cfg : Config World Strategy) (o : OnlineCLExperience) :
  experience (self cfg) = OfOnline o ->
  (access_task_boundaries o = true ->
     make_optimizer lib cfg
     = call lib (reset_optimizer (optimizer (self cfg)) (model (self cfg))) cfg) /\
  (access_task_boundaries o = false ->
     forall before,
       model_params_before_adaptation (self cfg) = Some before ->
       make_optimizer lib cfg
       = (let* params := call lib (model_parameters (model (self cfg))) in
          call lib (update_optimizer (optimizer (self cfg)) before params false))
           cfg) /\
  (access_task_boundaries o = false ->
     model_params_before_adaptation (self cfg) = None ->
     make_optimizer lib cfg
     = {| result := inl (AttributeError "model_params_before_adaptation");
          final := cfg;
          events := [] |}) /\
  existsb is_reset (events (make_optimizer lib cfg)) = access_task_boundaries o.
Proof.
  intros Hexp.
  assert (Hatb : forall k : bool -> M World Strategy unit,
             bind experience_access_task_boundaries k cfg
             = k (access_task_boundaries o) cfg).
  { intros k. unfold experience_access_task_boundaries.
    rewrite bind_assoc, bind_gets, Hexp. apply bind_ret. }
  unfold make_optimizer. rewrite Hatb.
  destruct (access_task_boundaries o).
  - rewrite !bind_gets.
    split; [reflexivity|]. split; [discriminate|]. split; [discriminate|].
    unfold call. now destruct (lib _ _).
  - rewrite bind_gets. unfold self_model_params_before_adaptation.
    rewrite bind_assoc, bind_gets.
    split; [discriminate|]. split; [|split].
    + intros _ before ->. now rewrite bind_ret, bind_gets.
    + intros _ ->. now rewrite bind_raise.
    + destruct (model_params_before_adaptation (self cfg)) as [before|].
      * rewrite bind_ret, bind_gets. unfold bind, call.
        destruct (lib _ _) as [[e|ps] w]; cbn [result events final]; [reflexivity|].
        now destruct (lib _ _).
      * now rewrite bind_raise.
Qed.

(** C8: with [access_task_boundaries] true and [is_first_subexp] false,
    [maybe_adapt_model_and_make_optimizer] returns having made no library
    call and having left the strategy and the libraries as they were. *)
Theorem maybe_adapt_noop (cfg : Config World Strategy) (o : OnlineCLExperience) :
  experience (self cfg) = OfOnline o ->
  access_task_boundaries o = true ->
  is_first_subexp o = false ->
  maybe_adapt_model_and_make_optimizer lib cfg
  = {| result := inr tt; final := cfg; events := [] |}.
Proof.
  intros Hexp Hb Hf.
  unfold maybe_adapt_model_and_make_optimizer, experience_access_task_boundaries,
    experience_is_first_subexp.
  rewrite bind_assoc, bind_gets, Hexp, bind_ret, Hb.
  now rewrite bind_assoc, bind_gets, Hexp, bind_ret, Hf.
Qed.


(** C6, amended: whatever the tensor and the rendering options,
    [default_cm_image_creator] makes no call that names a file and leaves
    the caller's state alone; when no library call raises, it returns the
    image that [Image.open] made of the [io.BytesIO] buffer into which
    [savefig] wrote the figure in format "jpg", after exactly the twelve
    calls listed; otherwise it returns no image and ends with the error of
    its last library call. *)
Theorem default_cm_image_creator_spec {St : Type} (cfg : Config World St)
    (confusion_matrix_tensor : objref)
    (display_labels include_values xticks_rotation values_format cmap dpi
     image_title : pyval) :
  let out := default_cm_image_creator lib confusion_matrix_tensor
               display_labels include_values xticks_rotation values_format
               cmap dpi image_title cfg in
  Forall (fun ev => touches_file ev = false) (events out) /\
  self (final out) = self cfg /\
  (Forall (fun ev => ev_raised ev = None) (events out) ->
   exists arr display ax fig buf image : objref,
     result out = inr image /\
     events out
     = [ Ev (tensor_numpy confusion_matrix_tensor) (inr arr);
         Ev (ConfusionMatrixDisplay arr display_labels) (inr display);
         Ev (display_plot display include_values cmap xticks_rotation
               values_format) (inr tt);
         Ev (display_ax_ display) (inr ax);
         Ev (ax_set_title ax image_title) (inr tt);
         Ev (display_figure_ display) (inr fig);
         Ev (fig_tight_layout fig) (inr tt);
         Ev io_BytesIO (inr buf);
         Ev (fig_savefig fig (PyObj buf) "jpg" dpi) (inr tt);
         Ev (plt_close fig) (inr tt);
         Ev (buf_seek buf 0) (inr tt);
         Ev (Image_open (PyObj buf)) (inr image) ]) /\
  (~ Forall (fun ev => ev_raised ev = None) (events out) ->
   exists (e : pyexn) (c : extcall),
     result out = inl e /\ last (events out) = Some (Ev c (inl e))).
Proof.
  intros out. subst out. unfold default_cm_image_creator.
  destruct cfg as [s w]. cbn [self].
  repeat (bind_call_types; rewrite bind_call; cbn [self world];
          destruct (lib _ _) as [[?|?] ?]; cbv zeta; cbn [result final events self];
          [ split; [repeat constructor|];
            split; [reflexivity|];
            split;
            [ intros Hquiet; exfalso;
              rewrite !Forall_cons in Hquiet; cbn in Hquiet;
              repeat match goal with H : _ /\ _ |- _ => destruct H end;
              discriminate
            | intros _; cbn [last];
              match goal with
              | |- context [Some (Ev ?c (inl ?e))] => exists e, c
              end;
              split; reflexivity ]
          | ]).
  cbn [ret result final events self].
  split; [repeat constructor|]. split; [reflexivity|].
  split.
  - intros _. cbn [resp] in *.
    repeat match goal with u : unit |- _ => destruct u end.
    repeat eexists.
  - intros Hnot. exfalso. apply Hnot. repeat constructor.
Qed.

(** *** Propagation of library errors *)

Lemma propagates_ret {St A : Type} (a : A) : propagates (@ret World St A a).
Proof. intros cfg ev e []. Qed.

Lemma propagates_raise {St A : Type} (e : pyexn) :
  propagates (@raise World St A e).
Proof. intros cfg ev e' []. Qed.

Lemma propagates_gets {St A : Type} (f : St -> A) :
  propagates (@gets World St A f).
Proof. intros cfg ev e []. Qed.

Lemma propagates_modify {St : Type} (f : St -> St) :
  propagates (@modify World St f).
Proof. intros cfg ev e []. Qed.

Lemma propagates_call {St : Type} (c : extcall) :
  propagates (@call World lib St c).
Proof.
  intros cfg ev e. unfold call. destruct (lib c (world cfg)) as [r w].
  cbn [events result]. intros [<-|[]]. unfold ev_raised. cbn [ev_resp].
  destruct r; congruence.
Qed.

Lemma propagates_bind {St A B : Type} (m : M World St A)
    (k : A -> M World St B) :
  propagates m -> (forall a, propagates (k a)) -> propagates (bind m k).
Proof.
  intros Hm Hk cfg ev e. unfold bind.
  specialize (Hm cfg ev e).
  destruct (m cfg) as [[e0|a] cfg1 ev1]; cbn [result events final] in *.
  - intros Hin Hev. specialize (Hm Hin Hev). congruence.
  - intros Hin Hev. apply in_app_or in Hin as [Hin|Hin].
    + specialize (Hm Hin Hev). discriminate Hm.
    + exact (Hk a cfg1 ev e Hin Hev).
Qed.

Ltac propagates_steps :=
  repeat first
    [ assumption
    | match goal with
      | H : forall x, propagates (?f lib x) |- propagates (?f lib _) => apply H
      end
    | match goal with
      | |- propagates (call lib ?c) => exact (propagates_call c)
      end
    | apply propagates_gets
    | apply propagates_ret | apply propagates_raise | apply propagates_modify
    | match goal with
      | |- propagates (match ?x with _ => _ end) => destruct x
      end
    | apply propagates_bind
    | match goal with |- forall _, _ => intro end ].

(** C7: in [default_cm_image_creator], [make_optimizer],
    [model_adaptation] and [maybe_adapt_model_and_make_optimizer], an error
    raised by a library call is the error the function raises. *)
Theorem library_errors_propagate :
  (forall (St : Type) (t : objref)
          (display_labels include_values xticks_rotation values_format cmap
           dpi image_title : pyval),
      propagates (@default_cm_image_creator World lib St t display_labels
                    include_values xticks_rotation values_format cmap dpi
                    image_title)) /\
  propagates (make_optimizer lib) /\
  (forall model_arg, propagates (model_adaptation lib model_arg)) /\
  propagates (maybe_adapt_model_and_make_optimizer lib).
Proof.
  assert (Hmo : propagates (make_optimizer lib)).
  { unfold make_optimizer, experience_access_task_boundaries,
      self_model_params_before_adaptation.
    propagates_steps. }
  assert (Hma : forall model_arg, propagates (model_adaptation lib model_arg)).
  { intros model_arg. unfold model_adaptation. propagates_steps. }
  split; [|split; [exact Hmo|split; [exact Hma|]]].
  - intros. unfold default_cm_image_creator. propagates_steps.
  - unfold maybe_adapt_model_and_make_optimizer,
      experience_access_task_boundaries, experience_is_first_subexp.
    propagates_steps.
Qed.
End Library.

(** ** The online stream splitter *)

Local Open Scope nat_scope.

Lemma chunks_upto_nil (fuel size : nat) : chunks_upto fuel size [] = [].
Proof. now destruct fuel. Qed.

Lemma chunks_upto_well_chunked (fuel size : nat) (l : list objref) :
  well_chunked size (chunks_upto fuel size l).
Proof.
  revert l. induction fuel as [|fuel IH]; intros l; [exact I|].
  destruct l as [|x l]; [exact I|].
  cbn [chunks_upto well_chunked]. split; [|split].
  - rewrite length_take. lia.
  - intros Hrest. rewrite length_take.
    destruct (drop size (x :: l)) as [|y r] eqn:Hd.
    + now rewrite chunks_upto_nil in Hrest.
    + assert (length (drop size (x :: l)) = length (y :: r)) as Hl by now rewrite Hd.
      rewrite length_drop in Hl. cbn [length] in *. lia.
  - apply IH.
Qed.

Lemma chunks_upto_concat (fuel size : nat) (l : list objref) :
  0 < size -> length l <= fuel -> concat (chunks_upto fuel size l) = l.
Proof.
  intros Hsize. revert l. induction fuel as [|fuel IH]; intros l Hl.
  - destruct l; [reflexivity|cbn in Hl; lia].
  - destruct l as [|x l]; [reflexivity|].
    cbn [chunks_upto concat]. rewrite IH.
    + apply take_drop.
    + rewrite length_drop. cbn [length] in *. lia.
Qed.

Lemma ceil_div_step (n size : nat) :
  0 < n -> 0 < size -> ceil_div n size = S (ceil_div (n - size) size).
Proof.
  intros Hn Hs. unfold ceil_div.
  destruct (Nat.le_gt_cases size n) as [Hle|Hgt].
  - replace (n + size - 1) with ((n - size + size - 1) + 1 * size) by lia.
    rewrite Nat.div_add by lia. lia.
  - replace (n - size) with 0 by lia. cbn [Nat.add].
    rewrite (Nat.div_small (size - 1)) by lia.
    symmetry. apply Nat.div_unique with (r := n - 1); lia.
Qed.

Lemma chunks_upto_length (fuel size : nat) (l : list objref) :
  0 < size -> length l <= fuel ->
  length (chunks_upto fuel size l) = ceil_div (length l) size.
Proof.
  intros Hsize. revert l. induction fuel as [|fuel IH]; intros l Hl.
  - destruct l; [|cbn in Hl; lia]. unfold ceil_div. cbn [length Nat.add].
    now rewrite Nat.div_small by lia.
  - destruct l as [|x l].
    + unfold ceil_div. cbn [chunks_upto length Nat.add].
      now rewrite Nat.div_small by lia.
    + cbn [chunks_upto]. cbn [length]. rewrite IH.
      * rewrite length_drop. cbn [length].
        now rewrite (ceil_div_step (S (length l)) size) by lia.
      * rewrite length_drop. cbn [length] in *. lia.
Qed.

Lemma kept_chunks_well_chunked (size : nat) (drop_last : bool) (l : list objref) :
  well_chunked size (kept_chunks size drop_last l).
Proof.
  unfold kept_chunks, fixed_size_chunks. destruct drop_last.
  - induction (chunks_upto (length l) size l) as [|c cs IH]; [exact I|].
    rewrite filter_cons. destruct (decide (length c = size)) as [Hc|Hc]; [|exact IH].
    cbn [well_chunked]. split; [lia|]. split; [intros _; exact Hc|exact IH].
  - apply chunks_upto_well_chunked.
Qed.

Lemma kept_chunks_full (size : nat) (l : list objref) (c : list objref) :
  In c (kept_chunks size true l) -> length c = size.
Proof.
  unfold kept_chunks. intros Hin.
  apply list_elem_of_In, list_elem_of_filter in Hin. tauto.
Qed.

Lemma kept_chunks_nonempty (size : nat) (drop_last : bool) (l : list objref) :
  0 < size -> (if drop_last then size else 1) <= length l ->
  kept_chunks size drop_last l <> [].
Proof.
  intros Hsize Hlen. unfold kept_chunks, fixed_size_chunks.
  destruct l as [|x l]; [destruct drop_last; cbn [length] in Hlen; lia|].
  cbn [length chunks_upto]. destruct drop_last; [|discriminate].
  rewrite filter_cons_True; [discriminate|].
  rewrite length_take. cbn [length] in *. lia.
Qed.

Lemma mark_subexps_length origin boundaries first cs :
  length (mark_subexps origin boundaries first cs) = length cs.
Proof.
  revert first. induction cs as [|c cs IH]; intros first; [reflexivity|].
  cbn [mark_subexps length]. now rewrite IH.
Qed.

Lemma mark_subexps_sizes origin size boundaries first cs x :
  well_chunked size cs ->
  In x (mark_subexps origin boundaries first cs) ->
  length (dataset x) <= size /\
  (is_last_subexp x = false -> length (dataset x) = size).
Proof.
  revert first. induction cs as [|c cs IH]; intros first Hwc Hin; [destruct Hin|].
  cbn [well_chunked] in Hwc. destruct Hwc as (Hle & Hfull & Hrest).
  cbn [mark_subexps] in Hin. destruct Hin as [<-|Hin].
  - cbn [dataset is_last_subexp]. split; [exact Hle|].
    destruct cs; [discriminate|]. intros _. now apply Hfull.
  - exact (IH false Hrest Hin).
Qed.

Lemma mark_subexps_dataset origin boundaries first cs x :
  In x (mark_subexps origin boundaries first cs) -> In (dataset x) cs.
Proof.
  revert first. induction cs as [|c cs IH]; intros first Hin; [destruct Hin|].
  cbn [mark_subexps] in Hin. destruct Hin as [<-|Hin].
  - now left.
  - right. exact (IH false Hin).
Qed.

Lemma cnt_is_first_cons x l :
  cnt_is_first (x :: l) = (if is_first_subexp x then 1 else 0) + cnt_is_first l.
Proof.
  unfold cnt_is_first. rewrite filter_cons.
  destruct (is_first_subexp x); now destruct (decide _).
Qed.

Lemma cnt_is_last_cons x l :
  cnt_is_last (x :: l) = (if is_last_subexp x then 1 else 0) + cnt_is_last l.
Proof.
  unfold cnt_is_last. rewrite filter_cons.
  destruct (is_last_subexp x); now destruct (decide _).
Qed.

Lemma cnt_is_first_app l1 l2 :
  cnt_is_first (l1 ++ l2) = cnt_is_first l1 + cnt_is_first l2.
Proof. unfold cnt_is_first. now rewrite filter_app, length_app. Qed.

Lemma cnt_is_last_app l1 l2 :
  cnt_is_last (l1 ++ l2) = cnt_is_last l1 + cnt_is_last l2.
Proof. unfold cnt_is_last. now rewrite filter_app, length_app. Qed.

Lemma cnt_is_first_mark_rest origin boundaries cs :
  cnt_is_first (mark_subexps origin boundaries false cs) = 0.
Proof.
  induction cs as [|c cs IH]; [reflexivity|].
  cbn [mark_subexps]. now rewrite cnt_is_first_cons, IH.
Qed.

Lemma cnt_is_first_mark origin boundaries cs :
  cs <> [] -> cnt_is_first (mark_subexps origin boundaries true cs) = 1.
Proof.
  destruct cs as [|c cs]; [congruence|]. intros _.
  cbn [mark_subexps]. now rewrite cnt_is_first_cons, cnt_is_first_mark_rest.
Qed.

Lemma cnt_is_last_mark origin boundaries first cs :
  cs <> [] -> cnt_is_last (mark_subexps origin boundaries first cs) = 1.
Proof.
  revert first. induction cs as [|c cs IH]; intros first Hne; [congruence|].
  cbn [mark_subexps]. rewrite cnt_is_last_cons. cbn [is_last_subexp].
  destruct cs as [|c' cs]; [reflexivity|].
  now rewrite IH.
Qed.

Lemma last_mark_subexps origin boundaries first cs :
  cs <> [] ->
  exists x, last (mark_subexps origin boundaries first cs) = Some x /\
            is_last_subexp x = true.
Proof.
  revert first. induction cs as [|c cs IH]; intros first Hne; [congruence|].
  cbn [mark_subexps]. destruct cs as [|c' cs].
  - eexists. split; reflexivity.
  - destruct (IH false ltac:(discriminate)) as (x & Hx & Hl).
    exists x. split; [|exact Hl].
    cbn [mark_subexps] in *. exact Hx.
Qed.

Lemma head_mark_subexps origin boundaries cs :
  cs <> [] ->
  exists x, head (mark_subexps origin boundaries true cs) = Some x /\
            is_first_subexp x = true.
Proof.
  destruct cs as [|c cs]; [congruence|]. intros _.
  eexists. split; reflexivity.
Qed.

Lemma split_online_stream_cons exp stream size drop_last boundaries :
  split_online_stream (exp :: stream) size drop_last boundaries
  = (fixed_size_experience_split exp size drop_last boundaries
     ++ split_online_stream stream size drop_last boundaries)%list.
Proof. reflexivity. Qed.

Lemma split_online_stream_in stream size drop_last boundaries x :
  In x (split_online_stream stream size drop_last boundaries) ->
  exists exp, In exp stream /\
              In x (fixed_size_experience_split exp size drop_last boundaries).
Proof.
  unfold split_online_stream. intros Hin.
  apply in_concat in Hin as (l & Hl & Hx).
  apply in_map_iff in Hl as (exp & <- & Hexp). eauto.
Qed.

(** C1 fails as stated: in a stream of two experiences of 15 samples
    split with chunk size 10, each experience yields 2 sub-experiences and
    the stream 4, while [ceil(S/C)] for the stream's total size [S = 30]
    is 3. *)
Lemma split_ceil_not_stream_total :
  let stream := stream_15_15 in
  (forall exp, In exp stream ->
     length (fixed_size_experience_split exp 10 false false) = 2) /\
  length (split_online_stream stream 10 false false) = 4 /\
  ceil_div (stream_size stream) 10 = 3.
Proof.
  cbv zeta. split; [|split]; [|vm_compute; reflexivity..].
  intros exp [<-|[<-|[]]]; vm_compute; reflexivity.
Qed.

(** C1, amended: with [drop_last=False] and chunk size [C > 0], a source
    experience of [s] samples yields [ceil(s/C)] sub-experiences, [s] being
    the size of that experience; the online stream has the sum of these,
    which is [ceil(S/C)] for the stream's total size [S] when the stream
    has one experience. *)
Theorem split_subexp_count (exp : CLExperience) (stream : list CLExperience)
    (size : nat) (boundaries : bool) :
  0 < size ->
  length (fixed_size_experience_split exp size false boundaries)
  = ceil_div (length (cl_dataset exp)) size /\
  length (split_online_stream stream size false boundaries)
  = list_sum (map (fun e => ceil_div (length (cl_dataset e)) size) stream) /\
  (stream = [exp] ->
   length (split_online_stream stream size false boundaries)
   = ceil_div (stream_size stream) size).
Proof.
  intros Hsize.
  assert (Hone : forall e,
             length (fixed_size_experience_split e size false boundaries)
             = ceil_div (length (cl_dataset e)) size).
  { intros e. unfold fixed_size_experience_split, kept_chunks, fixed_size_chunks.
    rewrite mark_subexps_length. now apply chunks_upto_length. }
  assert (Hall : forall s,
             length (split_online_stream s size false boundaries)
             = list_sum (map (fun e => ceil_div (length (cl_dataset e)) size) s)).
  { induction s as [|e s IH]; [reflexivity|].
    rewrite split_online_stream_cons, length_app, Hone, IH. reflexivity. }
  split; [apply Hone|]. split; [apply Hall|].
  intros ->. rewrite Hall. unfold stream_size, list_sum.
  cbn [map fold_right]. now rewrite !Nat.add_0_r.
Qed.

(** C2: in the online stream, with [drop_last=False] a sub-experience not
    marked last has exactly [C] samples and one marked last has at most
    [C]; with [drop_last=True] every sub-experience has exactly [C]. *)
Theorem split_subexp_sizes (stream : list CLExperience) (size : nat)
    (drop_last boundaries : bool) (x : OnlineCLExperience) :
  In x (split_online_stream stream size drop_last boundaries) ->
  (drop_last = false ->
     (is_last_subexp x = false -> length (dataset x) = size) /\
     (is_last_subexp x = true -> length (dataset x) <= size)) /\
  (drop_last = true -> length (dataset x) = size).
Proof.
  intros Hin. apply split_online_stream_in in Hin as (exp & _ & Hin).
  unfold fixed_size_experience_split in Hin.
  pose proof (mark_subexps_sizes _ size _ _ _ _
                (kept_chunks_well_chunked size drop_last (cl_dataset exp)) Hin)
    as [Hle Hfull].
  split.
  - intros _. split; [exact Hfull|intros _; exact Hle].
  - intros ->. apply mark_subexps_dataset in Hin.
    now apply kept_chunks_full in Hin.
Qed.

(** C3 fails as stated: one experience of 5 samples split with chunk size
    10 and [drop_last=True] yields no sub-experience, so none is marked
    first or last although the stream has one experience, and the online
    stream has no final sub-experience. *)
Lemma split_drop_last_short_experience :
  split_online_stream stream_5 10 true false = [] /\
  cnt_is_first (split_online_stream stream_5 10 true false) <> length stream_5 /\
  cnt_is_last (split_online_stream stream_5 10 true false) <> length stream_5 /\
  last (split_online_stream stream_5 10 true false) = None.
Proof. vm_compute. repeat split; discriminate. Qed.

(** C3, amended: when every source experience yields a sub-experience
    (it has at least [C] samples with [drop_last=True], at least one
    otherwise, [C > 0]), each source experience contributes exactly one
    sub-experience marked first, its first, and exactly one marked last,
    its last; so both counts equal the number of source experiences, and
    the final sub-experience of a non-empty stream is marked last. *)
Theorem split_subexp_marks (stream : list CLExperience) (size : nat)
    (drop_last boundaries : bool) :
  0 < size ->
  Forall (fun exp => (if drop_last then size else 1) <= length (cl_dataset exp))
         stream ->
  let online := split_online_stream stream size drop_last boundaries in
  (forall exp, In exp stream ->
     let sub := fixed_size_experience_split exp size drop_last boundaries in
     cnt_is_first sub = 1 /\ cnt_is_last sub = 1 /\
     (exists x, head sub = Some x /\ is_first_subexp x = true) /\
     (exists x, last sub = Some x /\ is_last_subexp x = true)) /\
  cnt_is_first online = length stream /\
  cnt_is_last online = length stream /\
  (stream <> [] -> exists x, last online = Some x /\ is_last_subexp x = true).
Proof.
  intros Hsize Hall online. subst online.
  assert (Hone : forall exp,
             (if drop_last then size else 1) <= length (cl_dataset exp) ->
             let sub := fixed_size_experience_split exp size drop_last boundaries in
             cnt_is_first sub = 1 /\ cnt_is_last sub = 1 /\
             (exists x, head sub = Some x /\ is_first_subexp x = true) /\
             (exists x, last sub = Some x /\ is_last_subexp x = true)).
  { intros exp Hlen sub. subst sub. unfold fixed_size_experience_split.
    pose proof (kept_chunks_nonempty size drop_last _ Hsize Hlen) as Hne.
    split; [now apply cnt_is_first_mark|].
    split; [now apply cnt_is_last_mark|].
    split; [now apply head_mark_subexps|now apply last_mark_subexps]. }
  split.
  { intros exp Hin. apply Hone.
    rewrite Forall_forall in Hall. apply Hall. now apply list_elem_of_In. }
  induction Hall as [|exp stream Hexp Hall IH].
  - split; [reflexivity|]. split; [reflexivity|]. congruence.
  - destruct IH as (IHf & IHl & IHlast).
    destruct (Hone exp Hexp) as (Hf & Hl & _ & Hlast).
    rewrite split_online_stream_cons, cnt_is_first_app, cnt_is_last_app.
    rewrite Hf, Hl, IHf, IHl. split; [reflexivity|]. split; [reflexivity|].
    intros _. rewrite last_app.
    destruct stream as [|exp' stream].
    + cbn [split_online_stream map concat last]. exact Hlast.
    + destruct (IHlast ltac:(discriminate)) as (x & Hx & Hxl).
      rewrite Hx. eauto.
Qed.

(** ** The properties on concrete inputs *)

(** An experience of 25 samples in chunks of 10: 3 sub-experiences. *)
Lemma split_subexp_count_witness :
  0 < 10 /\
  length (fixed_size_experience_split (experience_of 0 25) 10 false false) = 3.
Proof.
  split; [lia|].
  destruct (split_subexp_count (experience_of 0 25) stream_5x25 10 false
              ltac:(lia)) as [H _].
  exact H.
Defined.

(** The last sub-experience of the first of five experiences of 25 samples,
    in chunks of 10, holds the 5 samples left over. *)
Lemma split_subexp_sizes_witness :
  let x := {| dataset := seq 20 5;
              origin_experience := experience_of 0 25;
                       is_first_subexp := false;
              is_last_subexp := true;
              access_task_boundaries := false |} in
  In x (split_online_stream stream_5x25 10 false false) /\
  length (dataset x) <= 10.
Proof.
  intros x.
  assert (Hin : In x (split_online_stream stream_5x25 10 false false))
    by (vm_compute; right; right; left; reflexivity).
  split; [exact Hin|].
  destruct (split_subexp_sizes stream_5x25 10 false false x Hin) as [H _].
  destruct (H eq_refl) as [_ Hlast]. exact (Hlast eq_refl).
Defined.

(** Five experiences of 25 samples, full chunks of 10 only: five
    sub-experiences marked first, five marked last. *)
Lemma split_subexp_marks_witness :
  0 < 10 /\
  Forall (fun exp => 10 <= length (cl_dataset exp)) stream_5x25 /\
  cnt_is_first (split_online_stream stream_5x25 10 true false) = 5 /\
  cnt_is_last (split_online_stream stream_5x25 10 true false) = 5.
Proof.
  assert (Hall : Forall (fun exp => 10 <= length (cl_dataset exp)) stream_5x25).
  { unfold stream_5x25. cbn [map seq].
    repeat (constructor; [cbn; lia|]). constructor. }
  split; [lia|]. split; [exact Hall|].
  destruct (split_subexp_marks stream_5x25 10 true false ltac:(lia) Hall)
    as (_ & Hfirst & Hlast & _).
  split; [exact Hfirst|exact Hlast].
Defined.

(** C4 fails as stated: without task boundaries and with nothing recorded
    yet in [model_params_before_adaptation], [make_optimizer] raises
    [AttributeError] and does not call [update_optimizer]. *)
Lemma make_optimizer_nothing_recorded :
  let o := subexp_of true false in
  let cfg := strategy_at (OfOnline o) in
  experience (self cfg) = OfOnline o /\
  access_task_boundaries o = false /\
  result (make_optimizer quiet_lib cfg)
  = inl (AttributeError "model_params_before_adaptation") /\
  existsb is_update (events (make_optimizer quiet_lib cfg)) = false.
Proof.
  cbv zeta. split; [reflexivity|]. split; [reflexivity|]. split; reflexivity.
Qed.

(** Against the quiet library.  With task boundaries: one call, the reset
    of optimizer 1 on model 2.  Without, with the parameter 7 recorded:
    the parameters are read and the optimizer is updated from 7 to them. *)
Lemma make_optimizer_spec_witness :
  let reset_cfg := strategy_at (OfOnline (subexp_of true true)) in
  let update_cfg :=
    {| self := set_model_params_before_adaptation [7%nat]
                 (self (strategy_at (OfOnline (subexp_of true false))));
       world := 3%nat |} in
  (experience (self reset_cfg) = OfOnline (subexp_of true true) /\
   events (make_optimizer quiet_lib reset_cfg)
   = [Ev (reset_optimizer 1%nat 2%nat) (inr tt)]) /\
  (experience (self update_cfg) = OfOnline (subexp_of true false) /\
   model_params_before_adaptation (self update_cfg) = Some [7%nat] /\
   events (make_optimizer quiet_lib update_cfg)
   = [Ev (model_parameters 2%nat) (inr [0%nat; 1%nat; 2%nat]);
      Ev (update_optimizer 1%nat [7%nat] [0%nat; 1%nat; 2%nat] false)
         (inr tt)]).
Proof.
  intros reset_cfg update_cfg. split.
  - split; [reflexivity|].
    destruct (make_optimizer_spec quiet_lib reset_cfg (subexp_of true true)
                eq_refl) as [H _].
    rewrite (H eq_refl). reflexivity.
  - split; [reflexivity|]. split; [reflexivity|].
    destruct (make_optimizer_spec quiet_lib update_cfg (subexp_of true false)
                eq_refl) as (_ & H & _).
    rewrite (H eq_refl [7%nat] eq_refl). reflexivity.
Defined.

(** With task boundaries, on a sub-experience that is not the first:
    nothing happens. *)
Lemma maybe_adapt_noop_witness :
  let o := subexp_of false true in
  let cfg := strategy_at (OfOnline o) in
  experience (self cfg) = OfOnline o /\
  access_task_boundaries o = true /\
  is_first_subexp o = false /\
  maybe_adapt_model_and_make_optimizer quiet_lib cfg
  = {| result := inr tt; final := cfg; events := [] |}.
Proof.
  intros o cfg.
  split; [reflexivity|]. split; [reflexivity|]. split; [reflexivity|].
  exact (maybe_adapt_noop quiet_lib cfg o eq_refl eq_refl eq_refl).
Defined.


(** C6 fails as stated: when plotting rejects the colormap, no image is
    returned. *)
Lemma default_cm_image_creator_unknown_colormap :
  let out := default_cm_image_creator strict_lib 0%nat PyNone (PyBool true)
               (PyStr "horizontal") PyNone (PyStr "no such colormap")
               (PyInt 100) (PyStr "")
               (strategy_at (OfCL (experience_of 0 25))) in
  result out = inl ValueError_cmap /\
  (forall image, result out <> inr image).
Proof.
  cbv zeta.
  assert (H : result (default_cm_image_creator strict_lib 0%nat PyNone
                        (PyBool true) (PyStr "horizontal") PyNone
                        (PyStr "no such colormap") (PyInt 100) (PyStr "")
                        (strategy_at (OfCL (experience_of 0 25))))
              = inl ValueError_cmap)
    by (vm_compute; reflexivity).
  split; [exact H|]. intros image. rewrite H. discriminate.
Qed.

(** With the default options, against the quiet library: an image comes
    back.  With an unknown colormap, against the strict library: the
    error of the plotting call, the last call made. *)
Lemma default_cm_image_creator_spec_witness :
  let out := default_cm_image_creator quiet_lib 0%nat PyNone (PyBool true)
               (PyStr "horizontal") PyNone (PyStr "viridis") (PyInt 100)
               (PyStr "") (strategy_at (OfCL (experience_of 0 25))) in
  let out' := default_cm_image_creator strict_lib 0%nat PyNone (PyBool true)
                (PyStr "horizontal") PyNone (PyStr "no such colormap")
                (PyInt 100) (PyStr "")
                (strategy_at (OfCL (experience_of 0 25))) in
  (Forall (fun ev => ev_raised ev = None) (events out) /\
   exists image, result out = inr image) /\
  (~ Forall (fun ev => ev_raised ev = None) (events out') /\
   exists e c, result out' = inl e /\ last (events out') = Some (Ev c (inl e))).
Proof.
  intros out out'. split.
  - assert (Hquiet : Forall (fun ev => ev_raised ev = None) (events out))
      by (vm_compute; repeat constructor).
    split; [exact Hquiet|].
    destruct (default_cm_image_creator_spec quiet_lib
                (strategy_at (OfCL (experience_of 0 25))) 0%nat PyNone
                (PyBool true) (PyStr "horizontal") PyNone (PyStr "viridis")
                (PyInt 100) (PyStr "")) as (_ & _ & H & _).
    destruct (H Hquiet) as (arr & display & ax & fig & buf & image & Hr & _).
    exists image. exact Hr.
  - assert (Hraised : ~ Forall (fun ev => ev_raised ev = None) (events out')).
    { intros HF. rewrite Forall_forall in HF.
      specialize (HF (Ev (display_plot 4%nat (PyBool true)
                            (PyStr "no such colormap") (PyStr "horizontal")
                            PyNone)
                         (inl ValueError_cmap))).
      assert (Hin : Ev (display_plot 4%nat (PyBool true)
                          (PyStr "no such colormap") (PyStr "horizontal")
                          PyNone)
                       (inl ValueError_cmap) ∈ events out').
      { apply list_elem_of_In. vm_compute. right. right. left. reflexivity. }
      specialize (HF Hin). discriminate HF. }
    split; [exact Hraised|].
    destruct (default_cm_image_creator_spec strict_lib
                (strategy_at (OfCL (experience_of 0 25))) 0%nat PyNone
                (PyBool true) (PyStr "horizontal") PyNone
                (PyStr "no such colormap") (PyInt 100) (PyStr ""))
      as (_ & _ & _ & H).
    exact (H Hraised).
Defined.

(** With the colormap "jet", against the strict library: the [ValueError]
    of the plotting call comes out of [default_cm_image_creator]. *)
Lemma library_errors_propagate_witness :
  result (default_cm_image_creator strict_lib 0%nat PyNone (PyBool true)
            (PyStr "horizontal") PyNone (PyStr "jet") (PyInt 100) (PyStr "")
            (strategy_at (OfCL (experience_of 0 25))))
  = inl ValueError_cmap.
Proof.
  destruct (library_errors_propagate strict_lib) as [H _].
  apply (H Strategy 0%nat PyNone (PyBool true) (PyStr "horizontal") PyNone
           (PyStr "jet") (PyInt 100) (PyStr "")
           (strategy_at (OfCL (experience_of 0 25)))
           (Ev (display_plot 4%nat (PyBool true) (PyStr "jet")
                  (PyStr "horizontal") PyNone)
               (inl ValueError_cmap))).
  - vm_compute. right. right. left. reflexivity.
  - reflexivity.
Defined.

(** ** More on [bytes2human] *)

Local Open Scope Z_scope.

Lemma round_half_even_shift_ge (a e : Z) :
  0 <= a -> 0 < e -> a / 2 ^ e * 2 ^ e <= round_half_even_shift a e.
Proof.
  intros Ha He. unfold round_half_even_shift.
  rewrite Z.shiftr_div_pow2 by lia.
  assert (Hp : 0 < 2 ^ e) by (apply Z.pow_pos_nonneg; lia).
  destruct (_ || _); nia.
Qed.

(** Rounding a number of more than 53 bits keeps it between the powers of
    two around it. *)
Lemma round_half_even_shift_bounds (n : Z) :
  0 < n -> 53 < bit_length n ->
  2 ^ (bit_length n - 1) <= round_half_even_shift n (bit_length n - 53)
  <= 2 ^ bit_length n.
Proof.
  intros Hn Hb.
  pose proof (bit_length_bounds n Hn) as [Hlo Hhi].
  set (e := bit_length n - 53) in *.
  assert (He : 0 < e) by lia.
  assert (Hp : 0 < 2 ^ e) by (apply Z.pow_pos_nonneg; lia).
  assert (Hlow : 2 ^ (bit_length n - 1) = 2 ^ 52 * 2 ^ e).
  { rewrite <- Z.pow_add_r by lia. f_equal. lia. }
  assert (Hhigh : 2 ^ bit_length n = 2 ^ 53 * 2 ^ e).
  { rewrite <- Z.pow_add_r by lia. f_equal. lia. }
  pose proof (round_half_even_shift_ge n e ltac:(lia) He) as Hge.
  pose proof (round_half_even_shift_le n e ltac:(lia) He) as Hle.
  assert (Hq : 2 ^ 52 <= n / 2 ^ e < 2 ^ 53).
  { split.
    - apply Z.div_le_lower_bound; lia.
    - apply Z.div_lt_upper_bound; lia. }
  nia.
Qed.

(** The symbol at [i] is the largest with prefix at most [n] when [n] is
    below the next prefix. *)
Lemma largest_symbol (n : Z) (i : nat) (s : string) :
  symbols !! i = Some s ->
  2 ^ (10 * (Z.of_nat i + 1)) <= n ->
  ((i < 7)%nat -> n < 2 ^ (10 * (Z.of_nat i + 2))) ->
  forall j s', symbols !! j = Some s' ->
               2 ^ (10 * (Z.of_nat j + 1)) <= n -> (j <= i)%nat.
Proof.
  intros Hs Hle Hnext j s' Hj Hjle.
  apply lookup_lt_Some in Hj. change (length symbols) with 8%nat in Hj.
  destruct (Nat.le_gt_cases j i) as [|Hgt]; [assumption|].
  assert (2 ^ (10 * (Z.of_nat i + 2)) <= 2 ^ (10 * (Z.of_nat j + 1)))
    by (apply Z.pow_le_mono_r; lia).
  specialize (Hnext ltac:(lia)). lia.
Qed.

Lemma largest_symbol_exists (n : Z) :
  1024 <= n ->
  exists (i : nat) (s : string),
    symbols !! i = Some s /\
    2 ^ (10 * (Z.of_nat i + 1)) <= n /\
    ((i < 7)%nat -> n < 2 ^ (10 * (Z.of_nat i + 2))).
Proof.
  intros Hn.
  destruct (Z.lt_ge_cases n (2 ^ 20)); [exists 0%nat, "K"; repeat split; cbn; lia|].
  destruct (Z.lt_ge_cases n (2 ^ 30)); [exists 1%nat, "M"; repeat split; cbn; lia|].
  destruct (Z.lt_ge_cases n (2 ^ 40)); [exists 2%nat, "G"; repeat split; cbn; lia|].
  destruct (Z.lt_ge_cases n (2 ^ 50)); [exists 3%nat, "T"; repeat split; cbn; lia|].
  destruct (Z.lt_ge_cases n (2 ^ 60)); [exists 4%nat, "P"; repeat split; cbn; lia|].
  destruct (Z.lt_ge_cases n (2 ^ 70)); [exists 5%nat, "E"; repeat split; cbn; lia|].
  destruct (Z.lt_ge_cases n (2 ^ 80)); [exists 6%nat, "Z"; repeat split; cbn; lia|].
  exists 7%nat, "Y"; repeat split; cbn; lia.
Qed.

(** The scan, whether [float(n)] raises or not. *)
Lemma bytes2human_scan_at (n : Z) (i : nat) (s : string) :
  symbols !! i = Some s ->
  2 ^ (10 * (Z.of_nat i + 1)) <= n ->
  ((i < 7)%nat -> n < 2 ^ (10 * (Z.of_nat i + 2))) ->
  bytes2human n
  = match float_of_int n with
    | inl e => inl e
    | inr x =>
        inr (format_1f (float_div x (2 ^ (10 * (Z.of_nat i + 1)))) ++ s)%string
    end.
Proof.
  intros Hs Hle Hnext.
  pose proof (largest_symbol n i s Hs Hle Hnext) as Hmax.
  unfold bytes2human.
  destruct (float_of_int n) as [e|x] eqn:Hx.
  - rewrite <- (take_drop_middle symbols i s Hs).
    rewrite rev_app_distr. cbn [rev]. rewrite <- app_assoc. cbn [app].
    assert (Habove : Forall (fun s' => exists p', prefix !! s' = Some p' /\ n < p')
                            (rev (drop (S i) symbols))).
    { apply Forall_forall. intros s' Hin.
      apply list_elem_of_In, in_rev, list_elem_of_In in Hin.
      apply list_elem_of_lookup in Hin as [k Hk].
      rewrite lookup_drop in Hk.
      exists (2 ^ (10 * (Z.of_nat (S i + k) + 1))).
      split; [now apply prefix_lookup|].
      destruct (Z.lt_ge_cases n (2 ^ (10 * (Z.of_nat (S i + k) + 1))))
        as [|Hge]; [assumption|].
      specialize (Hmax _ _ Hk Hge). lia. }
    induction Habove as [|s' above [p' [Hs' Hlt]] _ IH].
    + cbn [app bytes2human_scan]. rewrite (prefix_lookup i s Hs), Hx.
      destruct (Z.leb_spec (2 ^ (10 * (Z.of_nat i + 1))) n); [reflexivity|lia].
    + rewrite <- app_comm_cons.
      now rewrite (bytes2human_scan_skip n p' s' _ Hs' Hlt).
  - now rewrite (bytes2human_scan_largest n x i s Hs Hle Hmax Hx).
Qed.



(** [float(n)] stays between the powers of two around [n]. *)
Lemma float_of_int_between (n x k : Z) :
  0 <= k -> 2 ^ k <= n < 2 ^ (k + 10) -> float_of_int n = inr x ->
  2 ^ k <= x <= 2 ^ (k + 10).
Proof.
  intros Hk [Hlo Hhi] Hx.
  assert (Hp : 0 < 2 ^ k) by (apply Z.pow_pos_nonneg; lia).
  assert (Hpos : 0 < n) by lia.
  unfold float_of_int in Hx. rewrite Z.abs_eq in Hx by lia.
  destruct (Z.leb_spec (bit_length n) 53) as [|Hb].
  - injection Hx as <-. lia.
  - destruct (Z.leb_spec (2 ^ 1024)
                (round_half_even_shift n (bit_length n - 53)));
      [discriminate|].
    injection Hx as <-. rewrite Z.sgn_pos, Z.mul_1_l by lia.
    pose proof (round_half_even_shift_bounds n Hpos Hb) as [Hrlo Hrhi].
    pose proof (bit_length_bounds n Hpos) as [Hblo Hbhi].
    assert (bit_length n <= k + 10) by (apply bit_length_le; lia).
    assert (k < bit_length n).
    { destruct (Z.lt_ge_cases k (bit_length n)) as [|Hge]; [assumption|].
      assert (2 ^ bit_length n <= 2 ^ k) by (apply Z.pow_le_mono_r; lia). lia. }
    assert (2 ^ k <= 2 ^ (bit_length n - 1)) by (apply Z.pow_le_mono_r; lia).
    assert (2 ^ bit_length n <= 2 ^ (k + 10)) by (apply Z.pow_le_mono_r; lia).
    lia.
Qed.

(** A quotient between 1 and 1024 prints between 1.0 and 1024.0. *)
Lemma round_half_even_tenths_between (x p : Z) :
  0 < p -> p <= x <= 1024 * p ->
  10 <= round_half_even_tenths (float_div x p) <= 10240.
Proof.
  intros Hp [Hlo Hhi]. unfold round_half_even_tenths, float_div.
  cbn [Qnum Qden]. rewrite Z2Pos.id by lia. rewrite Z.abs_eq by lia.
  pose proof (Z.div_mod (10 * x) p ltac:(lia)) as Hdm.
  pose proof (Z.mod_pos_bound (10 * x) p Hp) as Hr.
  set (q := 10 * x / p) in *. set (r := (10 * x) mod p) in *.
  assert (10 <= q) by (apply Z.div_le_lower_bound; lia).
  assert (q <= 10240) by (apply Z.div_le_upper_bound; lia).
  destruct ((p <? 2 * r) || ((2 * r =? p) && Z.odd q)) eqn:Hup; [|lia].
  assert (0 < r).
  { apply orb_true_iff in Hup as [Hup|Hup].
    - apply Z.ltb_lt in Hup. lia.
    - apply andb_true_iff in Hup as [Hup _]. apply Z.eqb_eq in Hup. lia. }
  nia.
Qed.

(** X3: for [1024 <= n < 2^90] the result is a number between 1.0 and
    1024.0, in tenths, followed by one of the eight symbols. *)
Theorem bytes2human_shown_range (n : Z) :
  1024 <= n < 2 ^ 90 ->
  exists (v : Q) (s : string),
    bytes2human n = inr (format_1f v ++ s)%string /\
    In s symbols /\
    10 <= round_half_even_tenths v <= 10240.
Proof.
  intros [Hlo Hhi].
  destruct (largest_symbol_exists n Hlo) as (i & s & Hs & Hle & Hnext).
  assert (Hi : (i < 8)%nat) by (apply lookup_lt_Some in Hs; exact Hs).
  assert (Hnext' : n < 2 ^ (10 * (Z.of_nat i + 1) + 10)).
  { destruct (Nat.eq_dec i 7%nat) as [->|Hne]; [exact Hhi|].
    replace (10 * (Z.of_nat i + 1) + 10) with (10 * (Z.of_nat i + 2)) by lia.
    apply Hnext. lia. }
  destruct (float_of_int_returns n) as (x & Hx & _).
  { assert (2 ^ 90 <= 2 ^ 1024 - 2 ^ 970) by lia. lia. }
  exists (float_div x (2 ^ (10 * (Z.of_nat i + 1)))), s.
  split; [|split].
  - now rewrite (bytes2human_scan_at n i s Hs Hle Hnext), Hx.
  - apply list_elem_of_In, list_elem_of_lookup. eauto.
  - pose proof (float_of_int_between n x (10 * (Z.of_nat i + 1)) ltac:(lia)
                  (conj Hle Hnext') Hx) as [Hxlo Hxhi].
    apply round_half_even_tenths_between.
    + apply Z.pow_pos_nonneg; lia.
    + rewrite Z.pow_add_r in Hxhi by lia. change (2 ^ 10) with 1024 in Hxhi. lia.
Qed.

Lemma bytes2human_shown_range_witness :
  1024 <= 2 ^ 20 - 1 < 2 ^ 90 /\ bytes2human (2 ^ 20 - 1) = inr "1024.0K".
Proof.
  assert (H : 1024 <= 2 ^ 20 - 1 < 2 ^ 90) by lia.
  split; [exact H|].
  destruct (bytes2human_shown_range (2 ^ 20 - 1) H) as (v & s & _ & _ & _).
  vm_compute. reflexivity.
Defined.

(** [float(n)] is [n] when [n] has at most 53 significant bits. *)
Lemma float_of_int_shifted (k m : Z) :
  0 < k < 2 ^ 53 -> 0 <= m -> k * 2 ^ m < 2 ^ 1024 ->
  float_of_int (k * 2 ^ m) = inr (k * 2 ^ m).
Proof.
  intros Hk Hm Hfin.
  assert (Hpm : 0 < 2 ^ m) by (apply Z.pow_pos_nonneg; lia).
  set (n := k * 2 ^ m) in *.
  assert (Hn : 0 < n) by (subst n; nia).
  unfold float_of_int. rewrite Z.abs_eq by lia.
  destruct (Z.leb_spec (bit_length n) 53) as [|Hb]; [reflexivity|].
  assert (Hbits : bit_length n <= 53 + m).
  { apply bit_length_le; [|lia]. rewrite Z.pow_add_r by lia. subst n. nia. }
  set (e := bit_length n - 53) in *.
  assert (Hsplit : 2 ^ m = 2 ^ (m - e) * 2 ^ e).
  { rewrite <- Z.pow_add_r by lia. f_equal. lia. }
  assert (Hpe : 0 < 2 ^ e) by (apply Z.pow_pos_nonneg; lia).
  assert (Hne : n = k * 2 ^ (m - e) * 2 ^ e) by (subst n; rewrite Hsplit; ring).
  assert (Hround : round_half_even_shift n e = n).
  { unfold round_half_even_shift. rewrite Z.shiftr_div_pow2 by lia.
    assert (Hmod : n mod 2 ^ e = 0) by (rewrite Hne; apply Z_mod_mult).
    pose proof (Z.div_mod n (2 ^ e) ltac:(lia)) as Hdm.
    rewrite Hmod in *.
    assert (0 < 2 ^ (e - 1)) by (apply Z.pow_pos_nonneg; lia).
    destruct (Z.ltb_spec (2 ^ (e - 1)) 0); [lia|].
    destruct (Z.eqb_spec 0 (2 ^ (e - 1))); [lia|].
    cbn [orb andb]. lia. }
  rewrite Hround.
  destruct (Z.leb_spec (2 ^ 1024) n); [lia|].
  now rewrite Z.sgn_pos, Z.mul_1_l by lia.
Qed.

Lemma string_app_assoc (a b c : string) :
  ((a ++ b) ++ c = a ++ b ++ c)%string.
Proof.
  induction a as [|x a IH]; [reflexivity|].
  change (String x ((a ++ b) ++ c) = String x (a ++ b ++ c))%string.
  now rewrite IH.
Qed.

(** X4: [k] times the prefix of the [i]-th symbol, [1 <= k < 1024], is
    shown as [k], ".0" and that symbol. *)
Theorem bytes2human_whole_units (i : nat) (s : string) (k : Z) :
  symbols !! i = Some s -> 1 <= k < 1024 ->
  bytes2human (k * 2 ^ (10 * (Z.of_nat i + 1)))
  = inr (str_int k ++ ".0" ++ s)%string.
Proof.
  intros Hs Hk.
  assert (Hi : (i < 8)%nat) by (apply lookup_lt_Some in Hs; exact Hs).
  set (m := 10 * (Z.of_nat i + 1)).
  assert (Hp : 0 < 2 ^ m) by (apply Z.pow_pos_nonneg; lia).
  assert (Hnext : k * 2 ^ m < 2 ^ (10 * (Z.of_nat i + 2))).
  { replace (10 * (Z.of_nat i + 2)) with (10 + m) by lia.
    rewrite Z.pow_add_r by lia. change (2 ^ 10) with 1024. nia. }
  assert (Hfin : k * 2 ^ m < 2 ^ 1024).
  { assert (2 ^ (10 * (Z.of_nat i + 2)) <= 2 ^ 1024)
      by (apply Z.pow_le_mono_r; lia).
    lia. }
  rewrite (bytes2human_scan_at _ i s Hs); [|fold m; nia|intros _; exact Hnext].
  fold m. rewrite float_of_int_shifted by (try assumption; lia).
  f_equal. unfold format_1f, round_half_even_tenths, float_div.
  cbn [Qnum Qden]. rewrite Z2Pos.id by lia.
  rewrite Z.abs_eq by nia.
  replace (10 * (k * 2 ^ m)) with (10 * k * 2 ^ m) by ring.
  rewrite Z_div_mult, Z_mod_mult by lia.
  destruct (Z.ltb_spec (k * 2 ^ m) 0); [nia|].
  destruct (Z.ltb_spec (2 ^ m) (2 * 0)); [lia|].
  destruct (Z.eqb_spec (2 * 0) (2 ^ m)); [lia|].
  cbn [orb andb].
  rewrite (Z.mul_comm 10 k), Z_div_mult, Z_mod_mult by lia.
  change (("" ++ str_int k ++ "." ++ str_int 0)%string)
    with ((str_int k ++ ".0")%string).
  apply string_app_assoc.
Qed.

Lemma bytes2human_whole_units_witness :
  symbols !! 2%nat = Some "G" /\ 1 <= 3 < 1024 /\
  bytes2human (3 * 2 ^ 30) = inr "3.0G".
Proof.
  split; [reflexivity|]. split; [lia|].
  exact (bytes2human_whole_units 2 "G" 3 eq_refl ltac:(lia)).
Defined.

(** ** More on [online_observation.py] and [default_cm_image_creator] *)

Section LibraryRuns.
Context {World : Type}.
Variable lib : forall c : extcall, World -> pyresult (resp c) * World.

Lemma fails_fast_mono {St A : Type} (own own' : pyexn -> Prop)
    (m : M World St A) :
  (forall e, own e -> own' e) -> fails_fast own m -> fails_fast own' m.
Proof.
  intros Hsub Hm cfg. specialize (Hm cfg).
  destruct (result (m cfg)) as [e|a]; [|exact Hm].
  destruct Hm as (pre & Hpre & [[Hev Hown]|Hlast]); exists pre; split; auto.
Qed.

Lemma fails_fast_ret {St A : Type} own (a : A) :
  fails_fast own (@ret World St A a).
Proof. intros cfg. constructor. Qed.

Lemma fails_fast_raise {St A : Type} (own : pyexn -> Prop) (e : pyexn) :
  own e -> fails_fast own (@raise World St A e).
Proof. intros Hown cfg. exists []. split; [constructor|]. now left. Qed.

Lemma fails_fast_gets {St A : Type} own (f : St -> A) :
  fails_fast own (@gets World St A f).
Proof. intros cfg. constructor. Qed.

Lemma fails_fast_modify {St : Type} own (f : St -> St) :
  fails_fast own (@modify World St f).
Proof. intros cfg. constructor. Qed.

Lemma fails_fast_call {St : Type} own (c : extcall) :
  fails_fast own (@call World lib St c).
Proof.
  intros cfg. unfold call. destruct (lib c (world cfg)) as [[e|v] w];
    cbn [result events].
  - exists []. split; [constructor|]. right. now exists c.
  - repeat constructor.
Qed.

Lemma fails_fast_bind {St A B : Type} own (m : M World St A)
    (k : A -> M World St B) :
  fails_fast own m -> (forall a, fails_fast own (k a)) ->
  fails_fast own (bind m k).
Proof.
  intros Hm Hk cfg. unfold bind. specialize (Hm cfg).
  destruct (m cfg) as [[e|a] cfg1 ev1]; cbn [result events final] in *;
    [exact Hm|].
  specialize (Hk a cfg1).
  destruct (k a cfg1) as [[e|b] cfg2 ev2]; cbn [result events final] in *.
  - destruct Hk as (pre & Hpre & [[-> Hown]|[c ->]]).
    + exists (ev1 ++ pre)%list. split; [now apply Forall_app|]. now left.
    + exists (ev1 ++ pre)%list. split; [now apply Forall_app|].
      right. exists c. now rewrite app_assoc.
  - now apply Forall_app.
Qed.

Ltac fails_fast_steps :=
  repeat first
    [ assumption
    | match goal with
      | H : forall x, fails_fast _ (?f lib x) |- fails_fast _ (?f lib _) =>
          apply H
      | |- fails_fast _ (call lib ?c) => exact (fails_fast_call _ c)
      | |- fails_fast _ (raise _) => apply fails_fast_raise; reflexivity
      end
    | apply fails_fast_gets | apply fails_fast_ret | apply fails_fast_modify
    | match goal with
      | |- fails_fast _ (match ?x with _ => _ end) => destruct x
      end
    | apply fails_fast_bind
    | match goal with |- forall _, _ => intro end ].

(** X5: the four functions stop at the first library call that raises:
    every call before the last has returned, and the error of the run is
    the one of the last call; [default_cm_image_creator] and
    [model_adaptation] raise no error of their own, [make_optimizer] and
    [maybe_adapt_model_and_make_optimizer] only [AttributeError]. *)
Theorem library_calls_fail_fast :
  (forall (St : Type) (t : objref)
          (display_labels include_values xticks_rotation values_format cmap
           dpi image_title : pyval),
      fails_fast (fun _ => False)
        (@default_cm_image_creator World lib St t display_labels
           include_values xticks_rotation values_format cmap dpi
           image_title)) /\
  (forall model_arg,
      fails_fast (fun _ => False) (model_adaptation lib model_arg)) /\
  fails_fast is_AttributeError (make_optimizer lib) /\
  fails_fast is_AttributeError (maybe_adapt_model_and_make_optimizer lib).
Proof.
  assert (Hma : forall model_arg,
             fails_fast (fun _ => False) (model_adaptation lib model_arg)).
  { intros model_arg. unfold model_adaptation. fails_fast_steps. }
  assert (Hma' : forall model_arg,
             fails_fast is_AttributeError (model_adaptation lib model_arg)).
  { intros model_arg. apply (fails_fast_mono (fun _ => False)); [tauto|apply Hma]. }
  assert (Hmo : fails_fast is_AttributeError (make_optimizer lib)).
  { unfold make_optimizer, experience_access_task_boundaries,
      self_model_params_before_adaptation.
    fails_fast_steps. }
  split; [|split; [exact Hma|split; [exact Hmo|]]].
  - intros. unfold default_cm_image_creator. fails_fast_steps.
  - clear Hma.
    unfold maybe_adapt_model_and_make_optimizer,
      experience_access_task_boundaries, experience_is_first_subexp.
    fails_fast_steps.
Qed.
End LibraryRuns.

Section FigureRuns.
Context {World : Type}.
Variable lib : forall c : extcall, World -> pyresult (resp c) * World.

(** X6: [default_cm_image_creator] calls [plt.close] exactly when
    [savefig] has returned, so a figure whose rendering or saving raised
    is left open; a run makes at most twelve library calls. *)
Theorem default_cm_image_creator_closes_figure {St : Type}
    (cfg : Config World St) (confusion_matrix_tensor : objref)
    (display_labels include_values xticks_rotation values_format cmap dpi
     image_title : pyval) :
  let out := default_cm_image_creator lib confusion_matrix_tensor
               display_labels include_values xticks_rotation values_format
               cmap dpi image_title cfg in
  (existsb is_plt_close (events out) = true <->
   exists ev, In ev (events out) /\ is_savefig ev = true /\
              ev_raised ev = None) /\
  (length (events out) <= 12)%nat.
Proof.
  intros out. subst out. unfold default_cm_image_creator.
  destruct cfg as [s w]. cbn [self].
  repeat (bind_call_types; rewrite bind_call; cbn [self world];
          destruct (lib _ _) as [[?|?] ?]; cbv zeta;
          cbn [result final events self];
          [ split; [|cbn; lia];
            split;
            [ first
                [ discriminate
                | intros _;
                  match goal with
                  | |- context [Ev (fig_savefig ?f ?b ?fmt ?d) ?r] =>
                      exists (Ev (fig_savefig f b fmt d) r)
                  end;
                  split; [cbn; tauto|split; reflexivity] ]
            | first
                [ reflexivity
                | intros (ev & Hin & Hs & Hq); cbn [In] in Hin;
                  repeat (destruct Hin as [<-|Hin]; [discriminate|]);
                  destruct Hin ] ]
          | ]).
  cbn [ret result final events self].
  split; [|cbn; lia].
  split; [|reflexivity].
  intros _.
  match goal with
  | |- context [Ev (fig_savefig ?f ?b ?fmt ?d) ?r] =>
      exists (Ev (fig_savefig f b fmt d) r)
  end.
  split; [cbn; tauto|split; reflexivity].
Qed.
End FigureRuns.

Section StrategyRuns.
Context {World : Type}.
Variable lib : forall c : extcall, World -> pyresult (resp c) * World.

Lemma call_run {St : Type} (c : extcall) (cfg : Config World St) :
  call lib c cfg
  = match lib c (world cfg) with
    | (r, w) =>
        {| result := r;
           final := {| self := self cfg; world := w |};
           events := [Ev c r] |}
    end.
Proof. reflexivity. Qed.

Lemma ret_run {St A : Type} (a : A) (cfg : Config World St) :
  ret a cfg = {| result := inr a; final := cfg; events := [] |}.
Proof. reflexivity. Qed.

Lemma raise_run {St A : Type} (e : pyexn) (cfg : Config World St) :
  @raise World St A e cfg = {| result := inl e; final := cfg; events := [] |}.
Proof. reflexivity. Qed.

(** Runs the code up to its next library call, and splits on the outcome
    of that call. *)
Ltac run_step :=
  first
    [ rewrite bind_assoc | rewrite bind_gets | rewrite bind_ret
    | rewrite bind_modify | rewrite bind_raise
    | progress cbn [self world experience optimizer model device
                    model_params_before_adaptation set_model
                    set_model_params_before_adaptation result final events]
    | match goal with
      | H : experience _ = _ |- _ => rewrite H
      | H : access_task_boundaries _ = _ |- _ => rewrite H
      | H : is_first_subexp _ = _ |- _ => rewrite H
      end
    | (bind_call_types; rewrite bind_call;
       destruct (lib _ _) as [[?e|?v] ?w]; cbv zeta)
    | (rewrite call_run; destruct (lib _ _) as [[?e|?v] ?w])
    | rewrite ret_run | rewrite raise_run ].

Ltac run := repeat run_step.

(** The last call of the run is the one that raised. *)
Ltac last_raised :=
  cbn [last];
  match goal with
  | |- exists c, Some (Ev ?c0 _) = _ => exists c0; reflexivity
  end.

(** X7: [make_optimizer] assigns no attribute of the strategy, never
    both resets and updates the optimizer, and makes at most two library
    calls. *)
Theorem make_optimizer_frame (cfg : Config World Strategy) :
  let out := make_optimizer lib cfg in
  self (final out) = self cfg /\
  (existsb is_reset (events out) && existsb is_update (events out) = false) /\
  (length (events out) <= 2)%nat.
Proof.
  intros out. subst out. destruct cfg as [s w].
  unfold make_optimizer, experience_access_task_boundaries,
    self_model_params_before_adaptation.
  destruct (experience s) as [e|o] eqn:Hexp; run;
    [repeat split; cbn; lia|].
  destruct (access_task_boundaries o) eqn:Hb; run;
    try (repeat split; cbn; lia).
  destruct (model_params_before_adaptation s) as [before|]; run;
    repeat split; cbn; lia.
Qed.

(** X8: [model_adaptation] assigns no attribute of the strategy but
    [model_params_before_adaptation], and that one only on an online
    experience without task boundaries. *)
Theorem model_adaptation_frame (cfg : Config World Strategy)
    (model_arg : option objref) :
  let out := model_adaptation lib model_arg cfg in
  experience (self (final out)) = experience (self cfg) /\
  optimizer (self (final out)) = optimizer (self cfg) /\
  model (self (final out)) = model (self cfg) /\
  device (self (final out)) = device (self cfg) /\
  (model_params_before_adaptation (self (final out))
   <> model_params_before_adaptation (self cfg) ->
   exists o, experience (self cfg) = OfOnline o /\
             access_task_boundaries o = false).
Proof.
  intros out. subst out. destruct cfg as [s w].
  unfold model_adaptation.
  destruct model_arg as [m|];
    (destruct (experience s) as [e|o] eqn:Hexp;
     [|destruct (access_task_boundaries o) eqn:Hb]);
    run; repeat split; try reflexivity; try congruence; eauto.
Qed.

(** X9: without task boundaries, [maybe_adapt_model_and_make_optimizer]
    fails only when a library call fails, and otherwise hands to
    [update_optimizer] the parameters it recorded before adapting and
    those of the model that [model.to] gave back, which becomes
    [self.model]. *)
Theorem maybe_adapt_without_boundaries (cfg : Config World Strategy)
    (o : OnlineCLExperience) :
  experience (self cfg) = OfOnline o ->
  access_task_boundaries o = false ->
  let out := maybe_adapt_model_and_make_optimizer lib cfg in
  let mdl := model (self cfg) in
  (forall e, result out = inl e ->
             exists c, last (events out) = Some (Ev c (inl e))) /\
  (result out = inr tt ->
   exists (before : list objref) (moved : objref) (after : list objref),
     events out
     = [ Ev (model_parameters mdl) (inr before);
         Ev (avalanche_model_adaptation mdl (OfOnline o)) (inr tt);
         Ev (model_to mdl (device (self cfg))) (inr moved);
         Ev (model_parameters moved) (inr after);
         Ev (update_optimizer (optimizer (self cfg)) before after false)
            (inr tt) ] /\
     self (final out)
     = set_model moved
         (set_model_params_before_adaptation before (self cfg))).
Proof.
  intros Hexp Hb out mdl. subst out mdl. destruct cfg as [s w].
  cbn [self] in *.
  unfold maybe_adapt_model_and_make_optimizer, model_adaptation, make_optimizer,
    experience_access_task_boundaries, self_model_params_before_adaptation.
  run; cbn [resp] in *;
    repeat match goal with u : unit |- _ => destruct u end;
    (split; [intros e' He'; inversion He'; subst; last_raised
            |intros Hr; try discriminate Hr; repeat eexists]).
Qed.

(** X10: with task boundaries, on a first sub-experience,
    [maybe_adapt_model_and_make_optimizer] adapts to the origin experience
    and resets the optimizer on the model that [model.to] gave back, which
    becomes [self.model]; it fails only when a library call fails. *)
Theorem maybe_adapt_first_with_boundaries (cfg : Config World Strategy)
    (o : OnlineCLExperience) :
  experience (self cfg) = OfOnline o ->
  access_task_boundaries o = true ->
  is_first_subexp o = true ->
  let out := maybe_adapt_model_and_make_optimizer lib cfg in
  let mdl := model (self cfg) in
  (forall e, result out = inl e ->
             exists c, last (events out) = Some (Ev c (inl e))) /\
  (result out = inr tt ->
   exists moved : objref,
     events out
     = [ Ev (avalanche_model_adaptation mdl (OfCL (origin_experience o)))
            (inr tt);
         Ev (model_to mdl (device (self cfg))) (inr moved);
         Ev (reset_optimizer (optimizer (self cfg)) moved) (inr tt) ] /\
     self (final out) = set_model moved (self cfg)).
Proof.
  intros Hexp Hb Hfirst out mdl. subst out mdl. destruct cfg as [s w].
  cbn [self] in *.
  unfold maybe_adapt_model_and_make_optimizer, model_adaptation, make_optimizer,
    experience_access_task_boundaries, experience_is_first_subexp.
  run; cbn [resp] in *;
    repeat match goal with u : unit |- _ => destruct u end;
    (split; [intros e' He'; inversion He'; subst; last_raised
            |intros Hr; try discriminate Hr; repeat eexists]).
Qed.

(** X11: [maybe_adapt_model_and_make_optimizer] never assigns
    [experience], [optimizer] or [device]; it resets the optimizer only on
    a first sub-experience with task boundaries, updates it only without
    task boundaries, and never does both. *)
Theorem maybe_adapt_effects (cfg : Config World Strategy) :
  let out := maybe_adapt_model_and_make_optimizer lib cfg in
  experience (self (final out)) = experience (self cfg) /\
  optimizer (self (final out)) = optimizer (self cfg) /\
  device (self (final out)) = device (self cfg) /\
  (existsb is_reset (events out) = true ->
   exists o, experience (self cfg) = OfOnline o /\
             access_task_boundaries o = true /\ is_first_subexp o = true) /\
  (existsb is_update (events out) = true ->
   exists o, experience (self cfg) = OfOnline o /\
             access_task_boundaries o = false) /\
  (existsb is_reset (events out) && existsb is_update (events out) = false).
Proof.
  intros out. subst out. destruct cfg as [s w]. cbn [self].
  unfold maybe_adapt_model_and_make_optimizer, model_adaptation, make_optimizer,
    experience_access_task_boundaries, experience_is_first_subexp,
    self_model_params_before_adaptation.
  destruct (experience s) as [e|o] eqn:Hexp; run;
    [repeat split; cbn; intros; congruence|].
  destruct (access_task_boundaries o) eqn:Hb;
    [destruct (is_first_subexp o) eqn:Hfirst|]; run;
    (split; [reflexivity|]); (split; [reflexivity|]); (split; [reflexivity|]);
    (split; [cbn; intros; try discriminate; eauto|]);
    (split; [cbn; intros; try discriminate; eauto|]);
    reflexivity.
Qed.
End StrategyRuns.

(** ** [_train_exp] *)

(** What the loop leaves at an entry. *)
Lemma train_exp_wrap_spec (fuel i : nat) (l : list eval_target) :
  (length l <= fuel + i)%nat ->
  train_exp_wrap fuel i l
  = (take i l
     ++ map (fun t => match t with
                      | SingleExperience e => ExperienceStream [e]
                      | ExperienceStream s => ExperienceStream s
                      end) (drop i l))%list.
Proof.
  revert i l. induction fuel as [|fuel IH]; intros i l Hlen.
  - cbn [train_exp_wrap]. rewrite take_ge, drop_ge by lia.
    cbn [map]. now rewrite app_nil_r.
  - cbn [train_exp_wrap]. destruct (l !! i) as [t|] eqn:Hi.
    + set (l' := match t with
                 | SingleExperience e => <[i := ExperienceStream [e]]> l
                 | ExperienceStream _ => l
                 end).
      set (t' := match t with
                 | SingleExperience e => ExperienceStream [e]
                 | ExperienceStream s => ExperienceStream s
                 end).
      assert (Hl' : l' = <[i := t']> l).
      { subst l' t'. destruct t; [reflexivity|]. symmetry. now apply list_insert_id. }
      assert (Hi' : (i < length l)%nat) by (now apply lookup_lt_Some in Hi).
      rewrite IH by (rewrite Hl', length_insert; lia).
      rewrite (take_S_r l' i t') by (rewrite Hl'; now apply list_lookup_insert_eq).
      rewrite Hl', take_insert_ge, drop_insert_lt by lia.
      rewrite (drop_S l t i Hi). cbn [map]. fold t'.
      now rewrite <- app_assoc.
    + apply lookup_ge_None in Hi. rewrite take_ge, drop_ge by lia.
      cbn [map]. now rewrite app_nil_r.
Qed.

(** X12: the loop of [_train_exp] keeps the length of [eval_streams],
    replaces each entry that is not an [Iterable] by the one-element list
    holding it, keeps the others, so that every entry is an [Iterable]
    afterwards; running it again changes nothing. *)
Theorem train_exp_eval_streams_spec (experience : AnyExperience)
    (eval_streams : option (list eval_target)) :
  let given := match eval_streams with
               | None => [SingleExperience experience]
               | Some l => l
               end in
  let passed := train_exp_eval_streams experience eval_streams in
  length passed = length given /\
  (forall i t, given !! i = Some t ->
     passed !! i = Some match t with
                        | SingleExperience e => ExperienceStream [e]
                        | ExperienceStream s => ExperienceStream s
                        end) /\
  Forall (fun t => is_Iterable t = true) passed /\
  train_exp_eval_streams experience (Some passed) = passed.
Proof.
  intros given passed.
  assert (Hpassed : passed
                    = map (fun t => match t with
                                    | SingleExperience e => ExperienceStream [e]
                                    | ExperienceStream s => ExperienceStream s
                                    end) given).
  { subst passed. unfold train_exp_eval_streams. fold given.
    rewrite train_exp_wrap_spec by lia. now rewrite take_0, drop_0. }
  split; [rewrite Hpassed; apply length_map|].
  split.
  { intros i t Hi. rewrite Hpassed.
    change (map ?f given) with (f <$> given). now rewrite list_lookup_fmap, Hi. }
  assert (Hall : Forall (fun t => is_Iterable t = true) passed).
  { rewrite Hpassed. apply Forall_forall. intros t Ht.
    apply list_elem_of_In, in_map_iff in Ht as (t0 & <- & _). now destruct t0. }
  split; [exact Hall|].
  unfold train_exp_eval_streams. rewrite train_exp_wrap_spec by lia.
  rewrite take_0, drop_0. cbn [app].
  clear Hpassed. induction Hall as [|t l Ht _ IH]; [reflexivity|].
  cbn [map]. rewrite IH. now destruct t.
Qed.

(** ** The further properties on concrete inputs *)

(** Just below one mebibyte the number shown is 1024.0. *)
Example bytes2human_rounds_up_to_1024 :
  bytes2human (2 ^ 20 - 1) = inr "1024.0K".
Proof. vm_compute. reflexivity. Qed.

(** When plotting rejects the colormap, the figure is not closed. *)
Example figure_left_open :
  existsb is_plt_close
    (events (default_cm_image_creator strict_lib 0%nat PyNone (PyBool true)
               (PyStr "horizontal") PyNone (PyStr "jet") (PyInt 100)
               (PyStr "") (strategy_at (OfCL (experience_of 0 25)))))
  = false.
Proof. vm_compute. reflexivity. Qed.

(** Against the strict library with the colormap "jet": the calls before
    the last returned, the last raised the [ValueError]. *)
Lemma library_calls_fail_fast_witness :
  exists pre c,
    Forall quiet pre /\
    events (default_cm_image_creator strict_lib 0%nat PyNone (PyBool true)
              (PyStr "horizontal") PyNone (PyStr "jet") (PyInt 100)
              (PyStr "") (strategy_at (OfCL (experience_of 0 25))))
    = (pre ++ [Ev c (inl ValueError_cmap)])%list.
Proof.
  destruct (library_calls_fail_fast strict_lib) as [H _].
  specialize (H Strategy 0%nat PyNone (PyBool true) (PyStr "horizontal")
                PyNone (PyStr "jet") (PyInt 100) (PyStr "")
                (strategy_at (OfCL (experience_of 0 25)))).
  vm_compute in H.
  destruct H as (pre & Hpre & [[_ []]|[c Hc]]).
  exists pre, c. split; [exact Hpre|exact Hc].
Defined.

(** Without task boundaries, against the quiet library: the parameters
    are recorded and the model is the one that came back. *)
Lemma maybe_adapt_without_boundaries_witness :
  let o := subexp_of true false in
  let cfg := strategy_at (OfOnline o) in
  experience (self cfg) = OfOnline o /\
  access_task_boundaries o = false /\
  exists before moved,
    self (final (maybe_adapt_model_and_make_optimizer quiet_lib cfg))
    = set_model moved (set_model_params_before_adaptation before (self cfg)).
Proof.
  intros o cfg. split; [reflexivity|]. split; [reflexivity|].
  destruct (maybe_adapt_without_boundaries quiet_lib cfg o eq_refl eq_refl)
    as [_ H].
  destruct (H eq_refl) as (before & moved & after & _ & Hself).
  exists before, moved. exact Hself.
Defined.

(** With task boundaries, on a first sub-experience, against the quiet
    library: the model is the one that came back. *)
Lemma maybe_adapt_first_with_boundaries_witness :
  let o := subexp_of true true in
  let cfg := strategy_at (OfOnline o) in
  experience (self cfg) = OfOnline o /\
  access_task_boundaries o = true /\
  is_first_subexp o = true /\
  exists moved,
    self (final (maybe_adapt_model_and_make_optimizer quiet_lib cfg))
    = set_model moved (self cfg).
Proof.
  intros o cfg.
  split; [reflexivity|]. split; [reflexivity|]. split; [reflexivity|].
  destruct (maybe_adapt_first_with_boundaries quiet_lib cfg o eq_refl eq_refl
              eq_refl) as [_ H].
  destruct (H eq_refl) as (moved & _ & Hself).
  exists moved. exact Hself.
Defined.
